(** * PolicyWithQs: parameter group, action distribution, gradient routing,
      target smoothing and checkpointing of [policy.py]

    The development embeds class [PolicyWithQs] of [policy.py].  Scalars of
    tensors are real numbers; every branch of the source is on flags,
    integers and lengths, so the control flow stays computable.  Python
    exceptions are values of [exn]; a method that mutates [self] is a
    function from the object to the mutated object together with either a
    result or the exception that interrupted it. *)

From Stdlib Require Import Reals Lra Lia ZArith List Bool DecimalString
  DecimalZ.
From stdpp Require Import base option list gmap strings.

Local Open Scope R_scope.

(** ** Exceptions and results *)

Inductive exn : Set :=
| AssertionError
| ValueError
| IndexError
| ZeroDivisionError
| AttributeError
| NotFoundError
| InvalidArgumentError
| TypeError.

Inductive result (A : Type) : Type :=
| Ok (a : A)
| Raise (e : exn).
Arguments Ok {A} a.
Arguments Raise {A} e.

Definition rbind {A B : Type} (r : result A) (k : A -> result B) : result B :=
  match r with
  | Ok a => k a
  | Raise e => Raise e
  end.

Fixpoint rmapM {A B : Type} (f : A -> result B) (l : list A) : result (list B) :=
  match l with
  | [] => Ok []
  | x :: rest =>
      rbind (f x) (fun y => rbind (rmapM f rest) (fun ys => Ok (y :: ys)))
  end.

(** ** Tensors

    A parameter tensor is its flat vector of entries, its shape is the
    length.  A batch of rows (rank 2) is a list of rows. *)

Definition tensor := list R.
Definition tensor2 := list (list R).

Definition same_shape (a b : tensor) : bool := Nat.eqb (length a) (length b).

Fixpoint same_shapes (ws vs : list tensor) : bool :=
  match ws, vs with
  | [], [] => true
  | w :: ws', v :: vs' => same_shape w v && same_shapes ws' vs'
  | _, _ => false
  end.

(** Element-wise operations on rank-2 tensors of one common shape. *)
Definition t2_map (f : R -> R) (a : tensor2) : tensor2 := map (map f) a.
Definition t2_map2 (f : R -> R -> R) (a b : tensor2) : tensor2 :=
  zip_with (zip_with f) a b.
Definition t2_imap (f : nat -> nat -> R -> R) (a : tensor2) : tensor2 :=
  imap (fun i row => imap (f i) row) a.

(** [tf.reduce_sum (_, axis=-1)]. *)
Definition reduce_sum_last (a : tensor2) : list R :=
  map (fun row => fold_right Rplus 0 row) a.

(** [tf.split (logits, num_or_size_splits=2, axis=-1)]: the last axis must
    be divisible by two. *)
Definition tf_split2_row (row : list R) : result (list R * list R) :=
  let n := length row in
  if Nat.even n then Ok (firstn (n / 2) row, skipn (n / 2) row)
  else Raise ValueError.

Definition tf_split2 (logits : tensor2) : result (tensor2 * tensor2) :=
  rbind (rmapM tf_split2_row logits)
        (fun halves => Ok (map fst halves, map snd halves)).

(** ** The Normal distribution of [tfp.distributions]

    [sample] draws standard normal noise of the batch shape and returns
    [noise * scale + loc]; the draw is the argument [noise], indexed by row
    and column.  [log_prob] is the library's formula
    [-0.5 * (x/scale - loc/scale)^2 - (0.5 * log (2 pi) + log scale)]. *)

Record Normal : Type := mkNormal { loc : tensor2; scale : tensor2 }.

Definition Normal_mean (d : Normal) : tensor2 := loc d.

Definition Normal_sample (noise : nat -> nat -> R) (d : Normal) : tensor2 :=
  t2_map2 (fun sg mu => sg + mu)
          (t2_imap (fun i j sg => noise i j * sg) (scale d)) (loc d).

Definition log_prob_normal (mu sg x : R) : R :=
  - (1 / 2) * ((x / sg - mu / sg) * (x / sg - mu / sg))
  - (1 / 2 * ln (2 * PI) + ln sg).

Definition Normal_log_prob (d : Normal) (x : tensor2) : tensor2 :=
  zip_with (zip_with (fun ms xv => log_prob_normal (fst ms) (snd ms) xv))
           (zip_with zip (loc d) (scale d)) x.

(** ** [_logits2action] *)

Inductive logp_t : Type :=
| logp_scalar (c : R)
| logp_rows (v : list R).

Definition eps_literal : R := 1 / 1000000.

Definition square (x : R) : R := x * x.

Definition _logits2action (deterministic_policy : bool)
           (noise : nat -> nat -> R) (logits : tensor2)
  : result (tensor2 * logp_t) :=
  rbind (tf_split2 logits) (fun '(mean, log_std) =>
    let act_dist := mkNormal mean (t2_map exp log_std) in
    let action :=
      if deterministic_policy then Normal_mean act_dist
      else Normal_sample noise act_dist in
    if negb deterministic_policy then
      let logps := Normal_log_prob act_dist action in
      let action := t2_map tanh action in
      let logp :=
        reduce_sum_last
          (t2_map (fun v => v + eps_literal)
             (t2_map2 Rminus logps
                (t2_map (fun a => ln (1 - square a)) action))) in
      Ok (action, logp_rows logp)
    else Ok (action, logp_scalar 0)).

(** ** Configuration and spaces *)

Inductive space : Type :=
| Box (shape : list nat)
| Discrete (n : nat).

(** [args.alpha] is either the string ['auto'] or a number. *)
Inductive alpha_t : Type :=
| alpha_auto
| alpha_value (v : R).

Definition alpha_is_auto (a : alpha_t) : bool :=
  match a with alpha_auto => true | alpha_value _ => false end.

Record Args : Type := mkArgs {
  obs_dim : option nat;
  act_dim : option nat;
  num_hidden_layers : nat;
  num_hidden_units : nat;
  policy_out_activation : string;
  policy_lr_schedule : list R;
  value_lr_schedule : list R;
  alpha_lr_schedule : list R;
  policy_only : bool;
  double_Q : bool;
  target : bool;
  alpha : alpha_t;
  deterministic_policy : bool;
  tau : R;
  delay_update : Z
}.

(** ** Modules

    Modelled from the spec: [MLPNet] and [AlphaModel] live in [model.py],
    which is not part of the sources.  A module is the interface of
    section 6 of the specification: a name, [get_weights]/[set_weights] over
    an ordered sequence of tensors and [trainable_weights]; every weight of
    these networks is trainable.  [set_weights] refuses a sequence whose
    count or shapes differ from the module's own.  The initial weights are
    drawn by an initializer, here the argument [init_mlp] (given the
    network's name and architecture) and [init_log_alpha]. *)

Record Module : Type := mkModule { name : string; weights : list tensor }.

Definition Module_get_weights (m : Module) : list tensor := weights m.

Definition Module_trainable_weights (m : Module) : list tensor := weights m.

Definition Module_set_weights (m : Module) (ws : list tensor) : result Module :=
  if same_shapes ws (weights m) then Ok (mkModule (name m) ws)
  else Raise ValueError.

Record Initializer : Type := mkInitializer {
  init_mlp : string -> nat -> nat -> nat -> nat -> list tensor;
  init_log_alpha : R
}.

Definition MLPNet (init : Initializer) (in_dim n_hiddens n_units out_dim : nat)
           (nm : string) : Module :=
  mkModule nm (init_mlp init nm in_dim n_hiddens n_units out_dim).

Definition AlphaModel (init : Initializer) (nm : string) : Module :=
  mkModule nm [[init_log_alpha init]].

(** References to the objects held by a [PolicyWithQs]: the tuples
    [models], [target_models] and [optimizers] alias the attributes. *)
Inductive mref : Set :=
| r_policy | r_policy_target
| r_Q1 | r_Q1_target
| r_Q2 | r_Q2_target
| r_alpha_model.

Inductive oref : Set :=
| r_policy_optimizer | r_Q1_optimizer | r_Q2_optimizer | r_alpha_optimizer.

(** Python slices [l[a:b]] for [0 <= a <= b] and [l[-1:]]. *)
Definition slice {A : Type} (a b : nat) (l : list A) : list A :=
  take (b - a) (drop a l).

Definition last_slice {A : Type} (l : list A) : list A :=
  drop (length l - 1) l.

(** numpy arithmetic on rank-1 arrays: [c * a] and [a + b] with
    broadcasting of a length-one operand. *)
Definition np_scale (c : R) (a : tensor) : tensor := map (Rmult c) a.

Definition np_add (a b : tensor) : result tensor :=
  if Nat.eqb (length a) (length b) then Ok (zip_with Rplus a b)
  else match a, b with
       | [x], _ => Ok (map (fun y => x + y) b)
       | _, [y] => Ok (map (fun x => x + y) a)
       | _, _ => Raise ValueError
       end.

(** [PolynomialDecay] called on the unpacked schedule: the entries of the
    schedule are the positional arguments of the constructor, which needs
    [initial_learning_rate] and [decay_steps] and takes at most four
    more; any other number of arguments is a [TypeError]. *)
Definition PolynomialDecay (schedule : list R) : result (list R) :=
  if Nat.leb 2 (length schedule) && Nat.leb (length schedule) 6
  then Ok schedule else Raise TypeError.

(** Every gradient of a list of pairs has the shape of its variable. *)
Definition well_shaped (pairs : list (tensor * tensor)) : bool :=
  forallb (fun gv => same_shape (fst gv) (snd gv)) pairs.

(** [str(iteration)]. *)
Definition str (z : Z) : string := NilZero.string_of_int (Z.to_int z).

Section Group.

(** The optimizer is a black box: [OS] is its internal state (moments),
    [opt_var o i g v] the new value of the variable paired at position [i]
    with gradient [g], [opt_slots o pairs] the internal state a call
    leaves.  An optimizer owns variables (its step counter among them) only
    once it has created them: [built] tells whether it has.  What a call
    that takes no step leaves behind is the optimizer's business as well:
    [opt_reached o pairs i] tells whether a failing call had come to the
    variable at position [i] before it raised, [opt_creates o pairs]
    whether a call without a step creates the optimizer's variables.
    [forward] is the evaluation of a network on a batch. *)
Context {OS : Type}.
Variable os_init : OS.

Record Optimizer : Type := mkOptimizer {
  _name : string;
  lr_schedule : list R;
  iterations : nat;
  slots : OS;
  built : bool
}.

Variable opt_var : Optimizer -> nat -> tensor -> tensor -> tensor.
Variable opt_slots : Optimizer -> list (tensor * tensor) -> OS.
Variable opt_reached : Optimizer -> list (tensor * tensor) -> nat -> bool.
Variable opt_creates : Optimizer -> list (tensor * tensor) -> bool.
Variable forward : Module -> tensor2 -> tensor2.

(** [Adam (schedule, name=nm)]: a fresh optimizer has no variables yet. *)
Definition Adam (schedule : list R) (nm : string) : Optimizer :=
  mkOptimizer nm schedule 0 os_init false.

(** [o.apply_gradients (pairs)].  Without a pair the call returns at once
    and no step is counted.  A gradient whose shape is not its variable's
    makes the call raise, again without a step counted; a variable the
    call had come to, with a gradient of its shape, has its new value,
    every other variable its old one.  Otherwise this is one optimization
    step: the variables of the pairs are updated in place, the counter
    advances by one.  The value is the optimizer after the call, the
    values of the variables of the pairs in order, and how the call
    ended. *)
Definition Optimizer_apply_gradients (o : Optimizer)
           (pairs : list (tensor * tensor))
  : Optimizer * list tensor * result unit :=
  match pairs with
  | [] =>
      (mkOptimizer (_name o) (lr_schedule o) (iterations o) (slots o)
                   (built o || opt_creates o pairs),
       [], Ok tt)
  | _ :: _ =>
      if well_shaped pairs then
        (mkOptimizer (_name o) (lr_schedule o) (S (iterations o))
                     (opt_slots o pairs) true,
         imap (fun i gv => opt_var o i (fst gv) (snd gv)) pairs,
         Ok tt)
      else
        (mkOptimizer (_name o) (lr_schedule o) (iterations o)
                     (opt_slots o pairs) (built o || opt_creates o pairs),
         imap (fun i gv =>
                 if opt_reached o pairs i && same_shape (fst gv) (snd gv)
                 then opt_var o i (fst gv) (snd gv) else snd gv) pairs,
         Raise InvalidArgumentError)
  end.

(** [o.apply_gradients (zip (grad, m.trainable_weights))]: [zip] stops at
    the shorter sequence, the weights beyond it are not touched. *)
Definition apply_zip (o : Optimizer) (grad : list tensor) (m : Module)
  : Optimizer * Module * result unit :=
  let pairs := zip grad (Module_trainable_weights m) in
  let r := Optimizer_apply_gradients o pairs in
  (fst (fst r),
   mkModule (name m) (snd (fst r) ++ drop (length pairs) (weights m)),
   snd r).

Record PolicyWithQs : Type := mkPolicyWithQs {
  args : Args;
  policy : Module;
  policy_target : Module;
  policy_optimizer : Optimizer;
  Q1 : Module;
  Q1_target : Module;
  Q1_optimizer : Optimizer;
  Q2 : Module;
  Q2_target : Module;
  Q2_optimizer : Optimizer;
  target_models : list mref;
  models : list mref;
  optimizers : list oref;
  alpha_model : option Module;
  alpha_optimizer : option Optimizer
}.

Definition set_policy (v : Module) (s : PolicyWithQs) : PolicyWithQs :=
  mkPolicyWithQs (args s) v (policy_target s) (policy_optimizer s) (Q1 s)
    (Q1_target s) (Q1_optimizer s) (Q2 s) (Q2_target s) (Q2_optimizer s)
    (target_models s) (models s) (optimizers s) (alpha_model s)
    (alpha_optimizer s).

Definition set_policy_target (v : Module) (s : PolicyWithQs) : PolicyWithQs :=
  mkPolicyWithQs (args s) (policy s) v (policy_optimizer s) (Q1 s)
    (Q1_target s) (Q1_optimizer s) (Q2 s) (Q2_target s) (Q2_optimizer s)
    (target_models s) (models s) (optimizers s) (alpha_model s)
    (alpha_optimizer s).

Definition set_policy_optimizer (v : Optimizer) (s : PolicyWithQs) : PolicyWithQs :=
  mkPolicyWithQs (args s) (policy s) (policy_target s) v (Q1 s) (Q1_target
    s) (Q1_optimizer s) (Q2 s) (Q2_target s) (Q2_optimizer s) (target_models
    s) (models s) (optimizers s) (alpha_model s) (alpha_optimizer s).

Definition set_Q1 (v : Module) (s : PolicyWithQs) : PolicyWithQs :=
  mkPolicyWithQs (args s) (policy s) (policy_target s) (policy_optimizer s)
    v (Q1_target s) (Q1_optimizer s) (Q2 s) (Q2_target s) (Q2_optimizer s)
    (target_models s) (models s) (optimizers s) (alpha_model s)
    (alpha_optimizer s).

Definition set_Q1_target (v : Module) (s : PolicyWithQs) : PolicyWithQs :=
  mkPolicyWithQs (args s) (policy s) (policy_target s) (policy_optimizer s)
    (Q1 s) v (Q1_optimizer s) (Q2 s) (Q2_target s) (Q2_optimizer s)
    (target_models s) (models s) (optimizers s) (alpha_model s)
    (alpha_optimizer s).

Definition set_Q1_optimizer (v : Optimizer) (s : PolicyWithQs) : PolicyWithQs :=
  mkPolicyWithQs (args s) (policy s) (policy_target s) (policy_optimizer s)
    (Q1 s) (Q1_target s) v (Q2 s) (Q2_target s) (Q2_optimizer s)
    (target_models s) (models s) (optimizers s) (alpha_model s)
    (alpha_optimizer s).

Definition set_Q2 (v : Module) (s : PolicyWithQs) : PolicyWithQs :=
  mkPolicyWithQs (args s) (policy s) (policy_target s) (policy_optimizer s)
    (Q1 s) (Q1_target s) (Q1_optimizer s) v (Q2_target s) (Q2_optimizer s)
    (target_models s) (models s) (optimizers s) (alpha_model s)
    (alpha_optimizer s).

Definition set_Q2_target (v : Module) (s : PolicyWithQs) : PolicyWithQs :=
  mkPolicyWithQs (args s) (policy s) (policy_target s) (policy_optimizer s)
    (Q1 s) (Q1_target s) (Q1_optimizer s) (Q2 s) v (Q2_optimizer s)
    (target_models s) (models s) (optimizers s) (alpha_model s)
    (alpha_optimizer s).

Definition set_Q2_optimizer (v : Optimizer) (s : PolicyWithQs) : PolicyWithQs :=
  mkPolicyWithQs (args s) (policy s) (policy_target s) (policy_optimizer s)
    (Q1 s) (Q1_target s) (Q1_optimizer s) (Q2 s) (Q2_target s) v
    (target_models s) (models s) (optimizers s) (alpha_model s)
    (alpha_optimizer s).

Definition set_alpha_model (v : option Module) (s : PolicyWithQs) : PolicyWithQs :=
  mkPolicyWithQs (args s) (policy s) (policy_target s) (policy_optimizer s)
    (Q1 s) (Q1_target s) (Q1_optimizer s) (Q2 s) (Q2_target s) (Q2_optimizer
    s) (target_models s) (models s) (optimizers s) v (alpha_optimizer s).

Definition set_alpha_optimizer (v : option Optimizer) (s : PolicyWithQs) : PolicyWithQs :=
  mkPolicyWithQs (args s) (policy s) (policy_target s) (policy_optimizer s)
    (Q1 s) (Q1_target s) (Q1_optimizer s) (Q2 s) (Q2_target s) (Q2_optimizer
    s) (target_models s) (models s) (optimizers s) (alpha_model s) v.

(** Dereferencing: [alpha_model] and [alpha_optimizer] are attributes only
    when [args.alpha == 'auto']. *)
Definition get_module (r : mref) (s : PolicyWithQs) : result Module :=
  match r with
  | r_policy => Ok (policy s)
  | r_policy_target => Ok (policy_target s)
  | r_Q1 => Ok (Q1 s)
  | r_Q1_target => Ok (Q1_target s)
  | r_Q2 => Ok (Q2 s)
  | r_Q2_target => Ok (Q2_target s)
  | r_alpha_model =>
      match alpha_model s with Some m => Ok m | None => Raise AttributeError end
  end.

Definition set_module (r : mref) (m : Module) (s : PolicyWithQs) : PolicyWithQs :=
  match r with
  | r_policy => set_policy m s
  | r_policy_target => set_policy_target m s
  | r_Q1 => set_Q1 m s
  | r_Q1_target => set_Q1_target m s
  | r_Q2 => set_Q2 m s
  | r_Q2_target => set_Q2_target m s
  | r_alpha_model => set_alpha_model (Some m) s
  end.

Definition get_optimizer (r : oref) (s : PolicyWithQs) : result Optimizer :=
  match r with
  | r_policy_optimizer => Ok (policy_optimizer s)
  | r_Q1_optimizer => Ok (Q1_optimizer s)
  | r_Q2_optimizer => Ok (Q2_optimizer s)
  | r_alpha_optimizer =>
      match alpha_optimizer s with
      | Some o => Ok o
      | None => Raise AttributeError
      end
  end.

Definition set_optimizer (r : oref) (o : Optimizer) (s : PolicyWithQs)
  : PolicyWithQs :=
  match r with
  | r_policy_optimizer => set_policy_optimizer o s
  | r_Q1_optimizer => set_Q1_optimizer o s
  | r_Q2_optimizer => set_Q2_optimizer o s
  | r_alpha_optimizer => set_alpha_optimizer (Some o) s
  end.

(** ** Methods that mutate [self]: state and exception monad *)

Definition M (A : Type) : Type := PolicyWithQs -> PolicyWithQs * result A.

Definition ret {A : Type} (a : A) : M A := fun s => (s, Ok a).

Definition bind {A B : Type} (c : M A) (k : A -> M B) : M B :=
  fun s =>
    match c s with
    | (s', Ok a) => k a s'
    | (s', Raise e) => (s', Raise e)
    end.

Definition gets {A : Type} (f : PolicyWithQs -> A) : M A := fun s => (s, Ok (f s)).

Definition try {A : Type} (f : PolicyWithQs -> result A) : M A := fun s => (s, f s).

Definition modify (f : PolicyWithQs -> PolicyWithQs) : M unit :=
  fun s => (f s, Ok tt).

Notation "x <- c ;; k" := (bind c (fun x => k))
  (at level 100, c at next level, right associativity).
Notation "c ;;; k" := (bind c (fun _ => k))
  (at level 100, right associativity).

(** ** [__init__] *)

Definition shape0 (sp : space) : result nat :=
  match sp with
  | Box (d :: _) => Ok d
  | Box [] => Raise IndexError
  | Discrete _ => Raise IndexError
  end.

Definition is_Box (sp : space) : bool :=
  match sp with Box _ => true | Discrete _ => false end.

Definition assert (b : bool) : result unit :=
  if b then Ok tt else Raise AssertionError.

(** Lines 48-72: which objects the three tuples hold. *)
Definition layout (a : Args) : result (list mref * list mref * list oref) :=
  rbind
    (if policy_only a then Ok ([], [r_policy], [r_policy_optimizer])
     else if double_Q a then
       rbind (assert (target a)) (fun _ =>
         Ok ([r_Q1_target; r_Q2_target; r_policy_target],
             [r_Q1; r_Q2; r_policy],
             [r_Q1_optimizer; r_Q2_optimizer; r_policy_optimizer]))
     else if target a then
       Ok ([r_Q1_target; r_policy_target], [r_Q1; r_policy],
           [r_Q1_optimizer; r_policy_optimizer])
     else Ok ([], [r_Q1; r_policy], [r_Q1_optimizer; r_policy_optimizer]))
    (fun '(tm, ms, os) =>
       if alpha_is_auto (alpha a)
       then Ok (tm, ms ++ [r_alpha_model], os ++ [r_alpha_optimizer])
       else Ok (tm, ms, os)).

Definition __init__ (init : Initializer) (obs_space act_space : space)
           (a : Args) : result PolicyWithQs :=
  rbind (assert (is_Box obs_space)) (fun _ =>
  rbind (assert (is_Box act_space)) (fun _ =>
  rbind (match obs_dim a with None => shape0 obs_space | Some d => Ok d end)
        (fun obs_dim =>
  rbind (match act_dim a with None => shape0 act_space | Some d => Ok d end)
        (fun act_dim =>
  let n_hiddens := num_hidden_layers a in
  let n_units := num_hidden_units a in
  let policy := MLPNet init obs_dim n_hiddens n_units (act_dim * 2) "policy" in
  let policy_target :=
    MLPNet init obs_dim n_hiddens n_units (act_dim * 2) "policy_target" in
  rbind (PolynomialDecay (policy_lr_schedule a)) (fun policy_lr_schedule =>
  let policy_optimizer := Adam policy_lr_schedule "policy_adam_opt" in
  let Q1 := MLPNet init (obs_dim + act_dim) n_hiddens n_units 1 "Q1" in
  rbind (Module_set_weights
           (MLPNet init (obs_dim + act_dim) n_hiddens n_units 1 "Q1_target")
           (Module_get_weights Q1)) (fun Q1_target =>
  rbind (PolynomialDecay (value_lr_schedule a)) (fun Q1_lr_schedule =>
  let Q1_optimizer := Adam Q1_lr_schedule "Q1_adam_opt" in
  let Q2 := MLPNet init (obs_dim + act_dim) n_hiddens n_units 1 "Q2" in
  rbind (Module_set_weights
           (MLPNet init (obs_dim + act_dim) n_hiddens n_units 1 "Q2_target")
           (Module_get_weights Q2)) (fun Q2_target =>
  rbind (PolynomialDecay (value_lr_schedule a)) (fun Q2_lr_schedule =>
  let Q2_optimizer := Adam Q2_lr_schedule "Q2_adam_opt" in
  rbind (layout a) (fun '(tm, ms, os) =>
  rbind (if alpha_is_auto (alpha a)
         then rbind (PolynomialDecay (alpha_lr_schedule a))
                    (fun alpha_lr_schedule =>
                       Ok (Some (Adam alpha_lr_schedule "alpha_adam_opt")))
         else Ok None) (fun alpha_optimizer =>
  Ok (mkPolicyWithQs a policy policy_target policy_optimizer
        Q1 Q1_target Q1_optimizer Q2 Q2_target Q2_optimizer tm ms os
        (if alpha_is_auto (alpha a)
         then Some (AlphaModel init "alpha") else None)
        alpha_optimizer)))))))))))).

(** ** [get_weights], [trainable_weights], [set_weights] *)

Definition get_weights (s : PolicyWithQs) : result (list (list tensor)) :=
  rbind (rmapM (fun r => rbind (get_module r s)
                           (fun m => Ok (Module_get_weights m))) (models s))
        (fun live =>
  rbind (rmapM (fun r => rbind (get_module r s)
                           (fun m => Ok (Module_get_weights m)))
               (target_models s))
        (fun shadow => Ok (live ++ shadow))).

Definition trainable_weights (s : PolicyWithQs) : result (list tensor) :=
  rbind (rmapM (fun r => rbind (get_module r s)
                           (fun m => Ok (Module_trainable_weights m)))
               (models s))
        (fun l => Ok (concat l)).

Fixpoint set_weights_from (i : nat) (ws : list (list tensor)) : M unit :=
  match ws with
  | [] => ret tt
  | weight :: rest =>
      r <- try (fun s =>
             if Nat.ltb i (length (models s)) then
               match models s !! i with
               | Some r => Ok r
               | None => Raise IndexError
               end
             else
               match target_models s !! (i - length (models s))%nat with
               | Some r => Ok r
               | None => Raise IndexError
               end) ;;
      m <- try (get_module r) ;;
      m' <- try (fun _ => Module_set_weights m weight) ;;
      modify (set_module r m') ;;;
      set_weights_from (S i) rest
  end.

Definition set_weights (ws : list (list tensor)) : M unit :=
  set_weights_from 0 ws.

(** ** Target updates *)

(** [tau * source + (1.0 - tau) * target] on one pair of tensors. *)
Definition blend (tau : R) (source target : tensor) : result tensor :=
  np_add (np_scale tau source) (np_scale (1 - tau) target).

(** The body shared by the three [update_*_target] methods. *)
Definition soft_update (tau : R) (source target : Module) : result Module :=
  let source_params := Module_get_weights source in
  let target_params := Module_get_weights target in
  rbind (rmapM (fun st => blend tau (fst st) (snd st))
               (zip source_params target_params))
        (Module_set_weights target).

Definition update_Q1_target : M unit :=
  m <- try (fun s => soft_update (tau (args s)) (Q1 s) (Q1_target s)) ;;
  modify (set_Q1_target m).

Definition update_Q2_target : M unit :=
  m <- try (fun s => soft_update (tau (args s)) (Q2 s) (Q2_target s)) ;;
  modify (set_Q2_target m).

Definition update_policy_target : M unit :=
  m <- try (fun s => soft_update (tau (args s)) (policy s) (policy_target s)) ;;
  modify (set_policy_target m).

(** ** [apply_gradients] *)

(** The four calls [<optimizer>.apply_gradients (zip (<grad>,
    <module>.trainable_weights))]: optimizer and module are as the call
    leaves them, also when it raises. *)
Definition step_policy (grad : list tensor) : M unit :=
  fun s =>
    let r := apply_zip (policy_optimizer s) grad (policy s) in
    (set_policy (snd (fst r)) (set_policy_optimizer (fst (fst r)) s), snd r).

Definition step_Q1 (grad : list tensor) : M unit :=
  fun s =>
    let r := apply_zip (Q1_optimizer s) grad (Q1 s) in
    (set_Q1 (snd (fst r)) (set_Q1_optimizer (fst (fst r)) s), snd r).

Definition step_Q2 (grad : list tensor) : M unit :=
  fun s =>
    let r := apply_zip (Q2_optimizer s) grad (Q2 s) in
    (set_Q2 (snd (fst r)) (set_Q2_optimizer (fst (fst r)) s), snd r).

Definition step_alpha (grad : list tensor) : M unit :=
  o <- try (get_optimizer r_alpha_optimizer) ;;
  m <- try (get_module r_alpha_model) ;;
  (fun s =>
     let r := apply_zip o grad m in
     (set_alpha_model (Some (snd (fst r)))
        (set_alpha_optimizer (Some (fst (fst r))) s), snd r)).

(** [iteration % delay_update == 0]. *)
Definition is_delayed_step (iteration delay : Z) : result bool :=
  if Z.eqb delay 0 then Raise ZeroDivisionError
  else Ok (Z.eqb (iteration mod delay) 0).

Definition apply_gradients (iteration : Z) (grads : list tensor) : M unit :=
  a <- gets args ;;
  if policy_only a then
    let policy_grad := grads in
    step_policy policy_grad
  else if double_Q a then
    q_weights_len <- gets (fun s => length (Module_trainable_weights (Q1 s))) ;;
    policy_weights_len <-
      gets (fun s => length (Module_trainable_weights (policy s))) ;;
    let q1_grad := slice 0 q_weights_len grads in
    let q2_grad := slice q_weights_len (2 * q_weights_len) grads in
    let policy_grad :=
      slice (2 * q_weights_len) (2 * q_weights_len + policy_weights_len)
            grads in
    step_Q1 q1_grad ;;;
    step_Q2 q2_grad ;;;
    delayed <- try (fun _ => is_delayed_step iteration (delay_update a)) ;;
    if (delayed : bool) then
      step_policy policy_grad ;;;
      update_policy_target ;;;
      update_Q1_target ;;;
      update_Q2_target ;;;
      if alpha_is_auto (alpha a) then
        let alpha_grad := last_slice grads in
        step_alpha alpha_grad
      else ret tt
    else ret tt
  else
    q_weights_len <- gets (fun s => length (Module_trainable_weights (Q1 s))) ;;
    policy_weights_len <-
      gets (fun s => length (Module_trainable_weights (policy s))) ;;
    let q1_grad := slice 0 q_weights_len grads in
    let policy_grad :=
      slice q_weights_len (q_weights_len + policy_weights_len) grads in
    step_Q1 q1_grad ;;;
    delayed <- try (fun _ => is_delayed_step iteration (delay_update a)) ;;
    if (delayed : bool) then
      step_policy policy_grad ;;;
      (if alpha_is_auto (alpha a) then
         let alpha_grad := last_slice grads in
         step_alpha alpha_grad
       else ret tt) ;;;
      if target a then
        update_policy_target ;;;
        update_Q1_target
      else ret tt
    else ret tt.

(** ** [compute_action], [compute_target_action], the critics, [log_alpha] *)

Definition compute_action (noise : nat -> nat -> R) (obs : tensor2)
           (s : PolicyWithQs) : result (tensor2 * logp_t) :=
  let logits := forward (policy s) obs in
  _logits2action (deterministic_policy (args s)) noise logits.

Definition compute_target_action (noise : nat -> nat -> R) (obs : tensor2)
           (s : PolicyWithQs) : result (tensor2 * logp_t) :=
  let logits := forward (policy_target s) obs in
  _logits2action (deterministic_policy (args s)) noise logits.

(** [tf.concat ([obs, act], axis=-1)]: the batch dimensions must agree. *)
Definition concat_last (obs act : tensor2) : result tensor2 :=
  if Nat.eqb (length obs) (length act) then Ok (zip_with app obs act)
  else Raise ValueError.

Definition compute_Q1 (obs act : tensor2) (s : PolicyWithQs) : result tensor2 :=
  rbind (concat_last obs act) (fun Q_inputs => Ok (forward (Q1 s) Q_inputs)).

Definition compute_Q2 (obs act : tensor2) (s : PolicyWithQs) : result tensor2 :=
  rbind (concat_last obs act) (fun Q_inputs => Ok (forward (Q2 s) Q_inputs)).

Definition compute_Q1_target (obs act : tensor2) (s : PolicyWithQs)
  : result tensor2 :=
  rbind (concat_last obs act)
        (fun Q_inputs => Ok (forward (Q1_target s) Q_inputs)).

Definition compute_Q2_target (obs act : tensor2) (s : PolicyWithQs)
  : result tensor2 :=
  rbind (concat_last obs act)
        (fun Q_inputs => Ok (forward (Q2_target s) Q_inputs)).

Definition log_alpha (s : PolicyWithQs) : result tensor :=
  rbind (get_module r_alpha_model s)
        (fun m => match weights m with
                  | w :: _ => Ok w
                  | [] => Raise AttributeError
                  end).

(** ** Checkpoints

    [tf.train.Checkpoint] groups the objects passed to it under names.  [save
    (file_prefix)] of a checkpoint object that has not saved before (its
    save counter becomes 1) writes, under the key [file_prefix-1], the
    variables of every named object: the weights of a module, the step
    counter and internal state of an optimizer that has created its
    variables, nothing for an optimizer that has not.  [restore
    (save_path)] reads the key [save_path] and assigns, by name, the stored
    values to the objects of the group it is called on: an object without
    stored values is left as it is, stored weights that do not fit the
    shapes of their module raise, and an optimizer that has not created
    its variables yet takes the stored values for them when it does.  The
    store maps a key to the named values written under it. *)

Inductive objref : Type :=
| obj_module (r : mref)
| obj_optimizer (r : oref).

Inductive saved : Type :=
| saved_weights (ws : list tensor)
| saved_optimizer (its : nat) (sl : OS).

(** The state of an object: the weights of a module, the step counter and
    the internal state of an optimizer. *)
Definition read_obj (s : PolicyWithQs) (o : objref) : option saved :=
  match o with
  | obj_module r =>
      match get_module r s with
      | Ok m => Some (saved_weights (weights m))
      | Raise _ => None
      end
  | obj_optimizer r =>
      match get_optimizer r s with
      | Ok o => Some (saved_optimizer (iterations o) (slots o))
      | Raise _ => None
      end
  end.

(** What a save writes for an object: its state, when it has variables. *)
Definition saved_state (s : PolicyWithQs) (o : objref) : option saved :=
  match o with
  | obj_module _ => read_obj s o
  | obj_optimizer r =>
      match get_optimizer r s with
      | Ok op => if built op then read_obj s o else None
      | Raise _ => None
      end
  end.

Definition write_obj (o : objref) (v : saved) (s : PolicyWithQs)
  : result PolicyWithQs :=
  match o, v with
  | obj_module r, saved_weights ws =>
      match get_module r s with
      | Ok m => rbind (Module_set_weights m ws)
                      (fun m' => Ok (set_module r m' s))
      | Raise _ => Ok s
      end
  | obj_optimizer r, saved_optimizer its sl =>
      match get_optimizer r s with
      | Ok o =>
          Ok (set_optimizer r
                (mkOptimizer (_name o) (lr_schedule o) its sl (built o)) s)
      | Raise _ => Ok s
      end
  | _, _ => Ok s
  end.

(** [dict (pairs)]: a later pair overrides an earlier one of the same key. *)
Definition dict {V : Type} (pairs : list (string * V)) : gmap string V :=
  list_to_map (reverse pairs).

Definition Checkpoint (s : PolicyWithQs) : result (gmap string objref) :=
  rbind (rmapM (fun r => rbind (get_module r s)
                           (fun model => Ok (name model, obj_module r)))
               (models s)) (fun model_pairs =>
  rbind (rmapM (fun r => rbind (get_module r s)
                           (fun target_model =>
                              Ok (name target_model, obj_module r)))
               (target_models s)) (fun target_model_pairs =>
  rbind (rmapM (fun r => rbind (get_optimizer r s)
                           (fun optimizer =>
                              Ok (_name optimizer, obj_optimizer r)))
               (optimizers s)) (fun optimizer_pairs =>
  Ok (dict (model_pairs ++ target_model_pairs ++ optimizer_pairs))))).

(** What a save writes: the variables of every named object that has
    some. *)
Definition Checkpoint_state (ckpt : gmap string objref) (s : PolicyWithQs)
  : gmap string saved :=
  omap (saved_state s) ckpt.

Definition Checkpoint_save (ckpt : gmap string objref) (s : PolicyWithQs)
           (file_prefix : string)
           (store : gmap string (gmap string saved))
  : gmap string (gmap string saved) :=
  <[file_prefix +:+ ("-" +:+ str 1) := Checkpoint_state ckpt s]> store.

(** The named objects are restored one after the other; what has been
    restored stays in place when a later object raises. *)
Fixpoint restore_objects (snapshot : gmap string saved)
         (objs : list (string * objref)) : M unit :=
  match objs with
  | [] => ret tt
  | (nm, o) :: rest =>
      match snapshot !! nm with
      | Some v =>
          s' <- try (write_obj o v) ;;
          modify (fun _ => s') ;;;
          restore_objects snapshot rest
      | None => restore_objects snapshot rest
      end
  end.

Definition Checkpoint_restore (ckpt : gmap string objref) (save_path : string)
           (store : gmap string (gmap string saved)) : M unit :=
  match store !! save_path with
  | None => try (fun _ => Raise NotFoundError)
  | Some snapshot => restore_objects snapshot (map_to_list ckpt)
  end.

Definition save_weights (save_dir : string) (iteration : Z)
           (store : gmap string (gmap string saved)) (s : PolicyWithQs)
  : result (gmap string (gmap string saved)) :=
  rbind (Checkpoint s) (fun ckpt =>
    Ok (Checkpoint_save ckpt s ((save_dir +:+ "/ckpt_ite") +:+ str iteration)
                        store)).

Definition load_weights (load_dir : string) (iteration : Z)
           (store : gmap string (gmap string saved)) : M unit :=
  ckpt <- try Checkpoint ;;
  Checkpoint_restore ckpt
    (((load_dir +:+ "/ckpt_ite") +:+ str iteration) +:+ "-1") store.

End Group.

(** ** Specification-side definitions

    The log-probability as the specification words it: the constant is
    added to the argument of the logarithm. *)
Definition logp_as_specified (mean log_std a_raw : tensor2) : list R :=
  reduce_sum_last
    (zip_with
       (zip_with (fun ml x =>
                    log_prob_normal (fst ml) (exp (snd ml)) x
                    - ln (1 - square (tanh x) + eps_literal)))
       (zip_with zip mean log_std) a_raw).

(** The element-wise moving average [tau * source + (1 - tau) * target] of
    two parameter lists. *)
Definition ema (tau : R) (source target : list tensor) : list tensor :=
  zip_with (zip_with (fun x y => tau * x + (1 - tau) * y)) source target.

(** What pairing a gradient list with a weight list by [zip] amounts to:
    the first [min (length grads) (length ws)] weights are replaced by the
    optimizer's new values, the others are kept. *)
Definition prefix_update {OS : Type}
           (opt_var : Optimizer (OS := OS) -> nat -> tensor -> tensor -> tensor)
           (o : Optimizer) (grads ws : list tensor) : list tensor :=
  imap (fun i gw => opt_var o i (fst gw) (snd gw))
       (take (Nat.min (length grads) (length ws)) (zip grads ws))
  ++ drop (Nat.min (length grads) (length ws)) ws.

(** The steps an optimizer counts for a list of pairs: none when the list
    is empty, one otherwise. *)
Definition steps_for {A : Type} (pairs : list A) : nat :=
  match pairs with [] => 0 | _ :: _ => 1 end.

(** The shape of a group: its tuples are the ones [__init__] builds from the
    flags, every object carries the name [__init__] gave it, and the
    entropy-coefficient objects exist exactly in mode ['auto']. *)
Definition well_formed {OS : Type} (s : PolicyWithQs (OS := OS)) : Prop :=
  layout (args s) = Ok (target_models s, models s, optimizers s)
  /\ name (policy s) = "policy" /\ name (policy_target s) = "policy_target"
  /\ name (Q1 s) = "Q1" /\ name (Q1_target s) = "Q1_target"
  /\ name (Q2 s) = "Q2" /\ name (Q2_target s) = "Q2_target"
  /\ _name (policy_optimizer s) = "policy_adam_opt"
  /\ _name (Q1_optimizer s) = "Q1_adam_opt"
  /\ _name (Q2_optimizer s) = "Q2_adam_opt"
  /\ (if alpha_is_auto (alpha (args s))
      then (exists m o, alpha_model s = Some m /\ alpha_optimizer s = Some o
                        /\ name m = "alpha" /\ _name o = "alpha_adam_opt")
      else alpha_model s = None /\ alpha_optimizer s = None).

(** ** Example data *)

Definition demo_init : Initializer :=
  mkInitializer
    (fun nm _ _ _ _ =>
       if String.eqb nm "policy" then [[1; 2]; [3]]
       else if String.eqb nm "policy_target" then [[4; 5]; [6]]
       else if String.eqb nm "Q1" then [[7]]
       else if String.eqb nm "Q1_target" then [[8]]
       else if String.eqb nm "Q2" then [[9]]
       else [[10]])
    0.

Definition demo_args (policy_only double_Q target : bool) (alpha : alpha_t)
           (deterministic : bool) (tau : R) (delay : Z) : Args :=
  mkArgs None None 2 3 "linear" [1; 10; 1] [1; 10; 1] [1; 10; 1] policy_only
         double_Q target alpha deterministic tau delay.

Definition demo_space : space := Box [3%nat].

(** A plain gradient step as the optimizer's rule, without internal state. *)
Definition demo_var (o : Optimizer (OS := unit)) (i : nat) (g v : tensor) : tensor :=
  zip_with Rminus v g.

Definition demo_slots (o : Optimizer (OS := unit)) (pairs : list (tensor * tensor))
  : unit := tt.

(** A call that takes no step changes no variable and creates none. *)
Definition demo_reached (o : Optimizer (OS := unit))
           (pairs : list (tensor * tensor)) (i : nat) : bool := false.

Definition demo_creates (o : Optimizer (OS := unit))
           (pairs : list (tensor * tensor)) : bool := false.

Definition demo_forward (m : Module) (obs : tensor2) : tensor2 :=
  map (fun row => row ++ row) obs.


(** A sequence of [apply_gradients] calls with one gradient list, stopping
    at the first exception, and the step counters of the four optimizers. *)
Definition demo_run (iterations : list Z) (grads : list tensor)
           (r : result (PolicyWithQs (OS := unit)))
  : result (PolicyWithQs (OS := unit)) :=
  fold_left
    (fun acc iteration =>
       rbind acc (fun s =>
         let x := apply_gradients demo_var demo_slots demo_reached demo_creates iteration grads s in
         rbind (snd x) (fun _ => Ok (fst x))))
    iterations r.

Definition demo_steps (r : result (PolicyWithQs (OS := unit)))
  : result (nat * nat * nat * option nat) :=
  rbind r (fun s =>
    Ok (iterations (Q1_optimizer s), iterations (Q2_optimizer s),
        iterations (policy_optimizer s),
        option_map iterations (alpha_optimizer s))).

(** ** Further specification-side definitions *)

(** The optimizer built for a trainable module, and the target built for
    a live network. *)
Definition optimizer_of (r : mref) : option oref :=
  match r with
  | r_policy => Some r_policy_optimizer
  | r_Q1 => Some r_Q1_optimizer
  | r_Q2 => Some r_Q2_optimizer
  | r_alpha_model => Some r_alpha_optimizer
  | _ => None
  end.

Definition target_of (r : mref) : option mref :=
  match r with
  | r_policy => Some r_policy_target
  | r_Q1 => Some r_Q1_target
  | r_Q2 => Some r_Q2_target
  | _ => None
  end.

(** Everything of a group that only [__init__] assigns: the configuration,
    the three tuples, the names of the objects, the learning-rate
    schedules, and whether the entropy-coefficient objects exist. *)
Definition skeleton {OS : Type} (s : PolicyWithQs (OS := OS)) :=
  (args s, models s, target_models s, optimizers s,
   (name (policy s), name (policy_target s), name (Q1 s), name (Q1_target s),
    name (Q2 s), name (Q2_target s), option_map name (alpha_model s)),
   (_name (policy_optimizer s), _name (Q1_optimizer s),
    _name (Q2_optimizer s), option_map _name (alpha_optimizer s)),
   (lr_schedule (policy_optimizer s), lr_schedule (Q1_optimizer s),
    lr_schedule (Q2_optimizer s), option_map lr_schedule (alpha_optimizer s))).

(** What one weight becomes when the optimizer [o] is handed the pair at
    position [i]: the new value when both a gradient and a weight stand
    there, the weight as it was otherwise. *)
Definition routed {OS : Type}
           (opt_var : Optimizer (OS := OS) -> nat -> tensor -> tensor -> tensor)
           (o : Optimizer) (i : nat) (g w : option tensor) : option tensor :=
  match g, w with
  | Some g, Some w => Some (opt_var o i g w)
  | _, _ => w
  end.

(** The slices [apply_gradients] cuts from [grads] when the group is not
    [policy_only]. *)
Definition q1_grad {OS : Type} (s : PolicyWithQs (OS := OS))
           (grads : list tensor) : list tensor :=
  slice 0 (length (weights (Q1 s))) grads.

Definition q2_grad {OS : Type} (s : PolicyWithQs (OS := OS))
           (grads : list tensor) : list tensor :=
  slice (length (weights (Q1 s))) (2 * length (weights (Q1 s))) grads.

Definition policy_grad {OS : Type} (s : PolicyWithQs (OS := OS))
           (grads : list tensor) : list tensor :=
  slice ((if double_Q (args s) then 2 else 1) * length (weights (Q1 s)))
        ((if double_Q (args s) then 2 else 1) * length (weights (Q1 s))
         + length (weights (policy s))) grads.

(** Every gradient the call hands to a critic optimizer has the shape of
    the weight it is paired with; the same for the policy optimizer. *)
Definition critic_grads_fit {OS : Type} (s : PolicyWithQs (OS := OS))
           (grads : list tensor) : bool :=
  well_shaped (zip (q1_grad s grads) (weights (Q1 s)))
  && (if double_Q (args s)
      then well_shaped (zip (q2_grad s grads) (weights (Q2 s)))
      else true).

Definition policy_grads_fit {OS : Type} (s : PolicyWithQs (OS := OS))
           (grads : list tensor) : bool :=
  well_shaped (zip (policy_grad s grads) (weights (policy s))).


(** The group [__init__] builds from the example initializer (an empty
    group of the same configuration should construction fail), and the
    store a save returns (the empty store should it fail). *)
Definition demo_group (a : Args) : PolicyWithQs (OS := unit) :=
  match __init__ tt demo_init demo_space demo_space a with
  | Ok s => s
  | Raise _ =>
      mkPolicyWithQs a (mkModule "" []) (mkModule "" []) (Adam tt [] "")
        (mkModule "" []) (mkModule "" []) (Adam tt [] "")
        (mkModule "" []) (mkModule "" []) (Adam tt [] "") [] [] [] None None
  end.

Definition demo_store (r : result (gmap string (gmap string (saved (OS := unit)))))
  : gmap string (gmap string saved) :=
  match r with Ok st => st | Raise _ => ∅ end.

Definition demo_twin : Args :=
  demo_args false true true alpha_auto false (1 / 2) 2.

Definition demo_single : Args :=
  demo_args false false false alpha_auto false (1 / 2) 2.

Definition demo_policy_only : Args :=
  demo_args true false false (alpha_value 1) false (1 / 2) 2.

Definition demo_grads : list tensor := [[1]; [1]; [1; 1]; [1]; [1]].

(** The twin-critic example group after one delayed step, which steps its
    four optimizers, and the same configuration drawn with zeros. *)
Definition demo_trained : PolicyWithQs (OS := unit) :=
  fst (apply_gradients demo_var demo_slots demo_reached demo_creates 0
                       demo_grads (demo_group demo_twin)).


(** * Properties *)

Section Properties.

Context {OS : Type}.
Variable os_init : OS.
Variable opt_var : Optimizer (OS := OS) -> nat -> tensor -> tensor -> tensor.
Variable opt_slots : Optimizer (OS := OS) -> list (tensor * tensor) -> OS.
Variable opt_reached :
  Optimizer (OS := OS) -> list (tensor * tensor) -> nat -> bool.
Variable opt_creates : Optimizer (OS := OS) -> list (tensor * tensor) -> bool.
Variable forward : Module -> tensor2 -> tensor2.

Implicit Types (s : PolicyWithQs (OS := OS)) (a : Args).

(** *** Action distribution *)

Lemma tanh_square_lt_1 (x : R) : 0 < 1 - square (tanh x).
Proof.
  unfold square, tanh, sinh, cosh.
  pose proof (exp_pos x) as Ha. pose proof (exp_pos (- x)) as Hb.
  set (p := exp x) in *. set (q := exp (- x)) in *.
  replace (1 - (p - q) / 2 / ((p + q) / 2) * ((p - q) / 2 / ((p + q) / 2)))
    with (4 * p * q / ((p + q) * (p + q))) by (field; lra).
  apply Rdiv_lt_0_compat; nra.
Qed.

Lemma ln_shift_lt (u : R) : 0 < u -> ln u < ln (u + eps_literal).
Proof.
  intros Hu. apply ln_increasing; [assumption | unfold eps_literal; lra].
Qed.

(** C6.  With the deterministic flag set, [compute_action] returns the mean
    half of the network output as the action, without [tanh], and the
    scalar constant 0 as the log-probability (whenever the output splits in
    two halves; otherwise the split's error). *)
Theorem compute_action_deterministic s noise obs :
  deterministic_policy (args s) = true ->
  compute_action forward noise obs s =
  rbind (tf_split2 (forward (policy s) obs))
        (fun halves => Ok (Normal_mean (mkNormal (fst halves)
                                                 (t2_map exp (snd halves))),
                           logp_scalar 0)).
Proof.
  intros Hdet. unfold compute_action, _logits2action. rewrite Hdet.
  destruct (tf_split2 (forward (policy s) obs)) as [[mean log_std] | e];
    reflexivity.
Qed.


(** C1.  On a batch of one row with one action dimension, mean [mu],
    log-std [ls] and noise [n0], the stochastic branch returns the action
    [tanh a_raw] for the pre-squash sample [a_raw = n0 * exp ls + mu], but
    its log-probability is [log_prob_normal a_raw - ln (1 - tanh a_raw ^ 2)
    + 1e-6]: the constant is added after the logarithm, and the value
    exceeds the specified [log_prob_normal a_raw - ln (1 - tanh a_raw ^ 2 +
    1e-6)] by more than 1e-6. *)
Theorem logits2action_eps_outside_log (mu ls n0 : R) :
  exists lp lp_spec,
    _logits2action false (fun _ _ => n0) [[mu; ls]]
    = Ok ([[tanh (n0 * exp ls + mu)]], logp_rows [lp])
    /\ lp = log_prob_normal mu (exp ls) (n0 * exp ls + mu)
            - ln (1 - square (tanh (n0 * exp ls + mu))) + eps_literal + 0
    /\ logp_as_specified [[mu]] [[ls]] [[n0 * exp ls + mu]] = [lp_spec]
    /\ lp_spec + eps_literal < lp.
Proof.
  exists (log_prob_normal mu (exp ls) (n0 * exp ls + mu)
          - ln (1 - square (tanh (n0 * exp ls + mu))) + eps_literal + 0),
         (log_prob_normal mu (exp ls) (n0 * exp ls + mu)
          - ln (1 - square (tanh (n0 * exp ls + mu)) + eps_literal) + 0).
  repeat split.
  pose proof (ln_shift_lt _ (tanh_square_lt_1 (n0 * exp ls + mu))) as Hln.
  unfold eps_literal in *. lra.
Qed.


(** *** Target updates *)

Lemma same_shapes_refl (ws : list tensor) : same_shapes ws ws = true.
Proof.
  induction ws as [| w ws IH]; simpl; [reflexivity |].
  unfold same_shape. rewrite Nat.eqb_refl. exact IH.
Qed.

Lemma blend_same_shape (t : R) (w v : tensor) :
  same_shape w v = true ->
  blend t w v = Ok (zip_with (fun x y => t * x + (1 - t) * y) w v).
Proof.
  unfold same_shape, blend, np_add, np_scale. intros Hlen.
  rewrite !length_map, Hlen. f_equal.
  apply Nat.eqb_eq in Hlen. clear -w.
  revert v. induction w as [| x w IH]; intros [| y v]; simpl; try reflexivity.
  f_equal. apply IH.
Qed.

Lemma rmapM_blend (t : R) (ws vs : list tensor) :
  same_shapes ws vs = true ->
  rmapM (fun st => blend t (fst st) (snd st)) (zip ws vs) = Ok (ema t ws vs).
Proof.
  revert vs. induction ws as [| w ws IH]; intros [| v vs] Hs;
    simpl in *; try discriminate; try reflexivity.
  apply andb_true_iff in Hs as [Hw Hs].
  rewrite (blend_same_shape _ _ _ Hw). simpl. rewrite (IH _ Hs). reflexivity.
Qed.

Lemma ema_same_shapes (t : R) (ws vs : list tensor) :
  same_shapes ws vs = true -> same_shapes (ema t ws vs) vs = true.
Proof.
  revert vs. induction ws as [| w ws IH]; intros [| v vs] Hs;
    simpl in *; try discriminate; try reflexivity.
  apply andb_true_iff in Hs as [Hw Hs]. apply andb_true_iff. split.
  - unfold same_shape in *. apply Nat.eqb_eq in Hw. apply Nat.eqb_eq.
    rewrite length_zip_with. lia.
  - apply IH, Hs.
Qed.

Lemma ema_tau_1 (ws vs : list tensor) :
  same_shapes ws vs = true -> ema 1 ws vs = ws.
Proof.
  revert vs. induction ws as [| w ws IH]; intros [| v vs] Hs;
    simpl in *; try discriminate; try reflexivity.
  apply andb_true_iff in Hs as [Hw Hs]. unfold ema in *. simpl.
  rewrite (IH _ Hs). f_equal.
  unfold same_shape in Hw. apply Nat.eqb_eq in Hw. clear -Hw.
  revert v Hw. induction w as [| x w IHw]; intros [| y v] Hw;
    simpl in *; try discriminate; try reflexivity.
  f_equal; [lra | apply IHw; lia].
Qed.

Lemma ema_tau_0 (ws vs : list tensor) :
  same_shapes ws vs = true -> ema 0 ws vs = vs.
Proof.
  revert vs. induction ws as [| w ws IH]; intros [| v vs] Hs;
    simpl in *; try discriminate; try reflexivity.
  apply andb_true_iff in Hs as [Hw Hs]. unfold ema in *. simpl.
  rewrite (IH _ Hs). f_equal.
  unfold same_shape in Hw. apply Nat.eqb_eq in Hw. clear -Hw.
  revert v Hw. induction w as [| x w IHw]; intros [| y v] Hw;
    simpl in *; try discriminate; try reflexivity.
  f_equal; [lra | apply IHw; lia].
Qed.

Lemma soft_update_ema (t : R) (source target : Module) :
  same_shapes (weights source) (weights target) = true ->
  soft_update t source target
  = Ok (mkModule (name target) (ema t (weights source) (weights target))).
Proof.
  intros Hs. unfold soft_update, Module_get_weights, Module_set_weights.
  rewrite (rmapM_blend _ _ _ Hs). simpl.
  rewrite (ema_same_shapes _ _ _ Hs). reflexivity.
Qed.

(** C7.  When source and target have the same shapes, each target update
    replaces the target's parameters by [tau * source + (1 - tau) * target],
    element by element and position by position, and touches nothing else;
    with [tau = 1] the target's parameters become the source's, with
    [tau = 0] they stay as they were. *)
Theorem target_update_rule s :
  same_shapes (weights (Q1 s)) (weights (Q1_target s)) = true ->
  same_shapes (weights (Q2 s)) (weights (Q2_target s)) = true ->
  same_shapes (weights (policy s)) (weights (policy_target s)) = true ->
  (update_Q1_target s
   = (set_Q1_target
        (mkModule (name (Q1_target s))
           (ema (tau (args s)) (weights (Q1 s)) (weights (Q1_target s)))) s,
      Ok tt)
   /\ update_Q2_target s
      = (set_Q2_target
           (mkModule (name (Q2_target s))
              (ema (tau (args s)) (weights (Q2 s)) (weights (Q2_target s)))) s,
         Ok tt)
   /\ update_policy_target s
      = (set_policy_target
           (mkModule (name (policy_target s))
              (ema (tau (args s)) (weights (policy s))
                   (weights (policy_target s)))) s,
         Ok tt))
  /\ (tau (args s) = 1 ->
      weights (Q1_target (fst (update_Q1_target s))) = weights (Q1 s)
      /\ weights (Q2_target (fst (update_Q2_target s))) = weights (Q2 s)
      /\ weights (policy_target (fst (update_policy_target s)))
         = weights (policy s))
  /\ (tau (args s) = 0 ->
      fst (update_Q1_target s) = s
      /\ fst (update_Q2_target s) = s
      /\ fst (update_policy_target s) = s).
Proof.
  intros H1 H2 Hp.
  assert (E1 := soft_update_ema (tau (args s)) _ _ H1).
  assert (E2 := soft_update_ema (tau (args s)) _ _ H2).
  assert (Ep := soft_update_ema (tau (args s)) _ _ Hp).
  unfold update_Q1_target, update_Q2_target, update_policy_target,
    bind, try, modify.
  rewrite E1, E2, Ep. split; [repeat split |]. split; intros Ht; rewrite Ht; simpl.
  - rewrite !ema_tau_1 by assumption. repeat split.
  - rewrite !ema_tau_0 by assumption. destruct s as [? ? [] ? ? [] ? ? [] ? ? ? ? ? ?].
    repeat split.
Qed.


(** *** Gradient routing *)

Lemma zip_slice_0 (grads ws : list tensor) :
  zip (slice 0 (length ws) grads) ws = zip grads ws.
Proof.
  unfold slice. rewrite Nat.sub_0_r, drop_0.
  revert ws. induction grads as [| g grads IH]; intros [| w ws];
    simpl; try reflexivity.
  f_equal. apply IH.
Qed.

(** What one optimizer call does to its optimizer and its module. *)
Lemma apply_zip_skeleton (o : Optimizer) (grads : list tensor) (m : Module) :
  name (snd (fst (apply_zip opt_var opt_slots opt_reached opt_creates
                            o grads m))) = name m
  /\ _name (fst (fst (apply_zip opt_var opt_slots opt_reached opt_creates
                                o grads m))) = _name o
  /\ lr_schedule (fst (fst (apply_zip opt_var opt_slots opt_reached
                                      opt_creates o grads m)))
     = lr_schedule o.
Proof.
  unfold apply_zip, Optimizer_apply_gradients.
  destruct (zip grads (Module_trainable_weights m)); [repeat split |].
  destruct (well_shaped _); repeat split.
Qed.

Lemma apply_zip_snd (o : Optimizer) (grads : list tensor) (m : Module) :
  snd (apply_zip opt_var opt_slots opt_reached opt_creates o grads m)
  = if well_shaped (zip grads (weights m)) then Ok tt
    else Raise InvalidArgumentError.
Proof.
  unfold apply_zip, Optimizer_apply_gradients, Module_trainable_weights.
  destruct (zip grads (weights m)) as [| p pairs]; [reflexivity |].
  destruct (well_shaped (p :: pairs)); reflexivity.
Qed.

Lemma apply_zip_iterations (o : Optimizer) (grads : list tensor) (m : Module) :
  iterations (fst (fst (apply_zip opt_var opt_slots opt_reached opt_creates
                                  o grads m)))
  = if well_shaped (zip grads (weights m))
    then (iterations o + steps_for (zip grads (weights m)))%nat
    else iterations o.
Proof.
  unfold apply_zip, Optimizer_apply_gradients, Module_trainable_weights.
  destruct (zip grads (weights m)) as [| p pairs]; [simpl; lia |].
  destruct (well_shaped (p :: pairs)); simpl; lia.
Qed.

Lemma apply_zip_prefix (o : Optimizer) (grads : list tensor) (m : Module) :
  well_shaped (zip grads (weights m)) = true ->
  weights (snd (fst (apply_zip opt_var opt_slots opt_reached opt_creates
                               o grads m)))
  = prefix_update opt_var o grads (weights m).
Proof.
  intros Hs.
  unfold apply_zip, prefix_update, Optimizer_apply_gradients,
    Module_trainable_weights.
  rewrite (take_ge (zip grads (weights m))) by (rewrite length_zip; lia).
  rewrite length_zip.
  destruct (zip grads (weights m)) as [| p pairs] eqn:E; [reflexivity |].
  rewrite Hs. reflexivity.
Qed.

Lemma prefix_update_slice (o : Optimizer) (grads ws : list tensor) :
  prefix_update opt_var o (slice 0 (length ws) grads) ws
  = prefix_update opt_var o grads ws.
Proof.
  unfold prefix_update. rewrite zip_slice_0.
  unfold slice. rewrite Nat.sub_0_r, drop_0, length_take.
  replace (Nat.min (Nat.min (length ws) (length grads)) (length ws))
    with (Nat.min (length grads) (length ws)) by lia.
  reflexivity.
Qed.

Lemma prefix_update_length (o : Optimizer) (grads ws : list tensor) :
  length (prefix_update opt_var o grads ws) = length ws.
Proof.
  unfold prefix_update.
  rewrite length_app, length_imap, length_take, length_zip, length_drop. lia.
Qed.

#[local] Opaque apply_zip.

(** Every path through [apply_gradients] once the flags are known. *)
Ltac unfold_apply_gradients :=
  unfold apply_gradients, step_policy, step_Q1, step_Q2, step_alpha,
    update_policy_target, update_Q1_target, update_Q2_target, is_delayed_step,
    get_optimizer, get_module, Module_trainable_weights in *;
  unfold bind, gets, try, modify, ret.

Ltac all_paths :=
  repeat match goal with
         | |- context [match snd (apply_zip ?v ?sl ?re ?cr ?o ?g ?m)
                       with _ => _ end] =>
             destruct (snd (apply_zip v sl re cr o g m)); simpl; auto
         | |- context [match soft_update ?t ?a ?b with _ => _ end] =>
             destruct (soft_update t a b); simpl; auto
         | |- context [if ?b then _ else _] => destruct b; simpl; auto
         | |- context [match alpha_optimizer ?x with _ => _ end] =>
             destruct (alpha_optimizer x); simpl; auto
         | |- context [match alpha_model ?x with _ => _ end] =>
             destruct (alpha_model x); simpl; auto
         end.

(** C5 (as amended).  In a configuration that is not [policy_only], a call
    whose iteration is not a multiple of the delay period leaves every
    target network, the policy, the policy optimizer and the
    entropy-coefficient objects as they were, however it ends.  When every
    gradient handed to a critic has the shape of its weight, the call
    returns normally and the optimizer of critic 1 (and of critic 2 under
    [double_Q]) has advanced by one step, or by none when it was handed no
    pair. *)
Theorem apply_gradients_off_schedule s (iteration : Z) (grads : list tensor) :
  policy_only (args s) = false ->
  delay_update (args s) <> 0%Z ->
  (iteration mod delay_update (args s))%Z <> 0%Z ->
  exists s' r,
    apply_gradients opt_var opt_slots opt_reached opt_creates iteration grads s
    = (s', r)
    /\ policy_target s' = policy_target s
    /\ Q1_target s' = Q1_target s
    /\ Q2_target s' = Q2_target s
    /\ policy_optimizer s' = policy_optimizer s
    /\ policy s' = policy s
    /\ alpha_optimizer s' = alpha_optimizer s
    /\ alpha_model s' = alpha_model s
    /\ (double_Q (args s) = false ->
        Q2_optimizer s' = Q2_optimizer s /\ Q2 s' = Q2 s)
    /\ (critic_grads_fit s grads = true ->
        r = Ok tt
        /\ iterations (Q1_optimizer s')
           = (iterations (Q1_optimizer s)
              + steps_for (zip (q1_grad s grads) (weights (Q1 s))))%nat
        /\ (double_Q (args s) = true ->
            iterations (Q2_optimizer s')
            = (iterations (Q2_optimizer s)
               + steps_for (zip (q2_grad s grads) (weights (Q2 s))))%nat)).
Proof.
  intros Hpo Hd Hm.
  apply Z.eqb_neq in Hd. apply Z.eqb_neq in Hm.
  pose proof (apply_zip_snd (Q1_optimizer s) (q1_grad s grads) (Q1 s)) as S1.
  pose proof (apply_zip_snd (Q2_optimizer s) (q2_grad s grads) (Q2 s)) as S2.
  pose proof (apply_zip_iterations (Q1_optimizer s) (q1_grad s grads) (Q1 s))
    as I1.
  pose proof (apply_zip_iterations (Q2_optimizer s) (q2_grad s grads) (Q2 s))
    as I2.
  unfold critic_grads_fit, q1_grad, q2_grad in *.
  unfold_apply_gradients. rewrite Hpo.
  destruct (double_Q (args s)) eqn:Hdq; simpl in *.
  - destruct (well_shaped (zip (slice 0 _ grads) (weights (Q1 s)))) eqn:W1;
      rewrite S1; simpl.
    + destruct (well_shaped (zip (slice _ _ grads) (weights (Q2 s)))) eqn:W2;
        rewrite S2; simpl; rewrite ?Hd, ?Hm; simpl;
        eexists _, _; (split; [reflexivity |]); simpl;
        repeat (first [split | intro]); try discriminate; try assumption.
    + eexists _, _; (split; [reflexivity |]); simpl;
        repeat (first [split | intro]); try discriminate.
  - destruct (well_shaped (zip (slice 0 _ grads) (weights (Q1 s)))) eqn:W1;
      rewrite S1; simpl; rewrite ?Hd, ?Hm; simpl;
      eexists _, _; (split; [reflexivity |]); simpl;
      repeat (first [split | intro]); try discriminate; try assumption.
Qed.

(** C3 (as amended).  [apply_gradients] never compares the length of
    [grads] with a weight count; it pairs gradients and weights by [zip].
    Under [policy_only], when every gradient so paired has the shape of
    its weight, the call returns normally, exactly the first [min (len
    grads) (len weights)] policy weights are updated and the others kept,
    and the policy optimizer counts one step (none when there is no
    pair); when some paired gradient has another shape, the optimizer
    raises and counts no step.  Otherwise the same holds of critic 1 and
    its optimizer, whatever happens later in the call. *)
Theorem apply_gradients_zip_truncates s (iteration : Z) (grads : list tensor) :
  if policy_only (args s) then
    if well_shaped (zip grads (weights (policy s))) then
      snd (apply_gradients opt_var opt_slots opt_reached opt_creates
                           iteration grads s) = Ok tt
      /\ weights (policy (fst (apply_gradients opt_var opt_slots opt_reached
                                               opt_creates iteration grads s)))
         = prefix_update opt_var (policy_optimizer s) grads (weights (policy s))
      /\ iterations
           (policy_optimizer
              (fst (apply_gradients opt_var opt_slots opt_reached opt_creates
                                    iteration grads s)))
         = (iterations (policy_optimizer s)
            + steps_for (zip grads (weights (policy s))))%nat
    else
      snd (apply_gradients opt_var opt_slots opt_reached opt_creates
                           iteration grads s) = Raise InvalidArgumentError
      /\ iterations
           (policy_optimizer
              (fst (apply_gradients opt_var opt_slots opt_reached opt_creates
                                    iteration grads s)))
         = iterations (policy_optimizer s)
  else
    if well_shaped (zip grads (weights (Q1 s))) then
      weights (Q1 (fst (apply_gradients opt_var opt_slots opt_reached
                                        opt_creates iteration grads s)))
      = prefix_update opt_var (Q1_optimizer s) grads (weights (Q1 s))
      /\ iterations
           (Q1_optimizer
              (fst (apply_gradients opt_var opt_slots opt_reached opt_creates
                                    iteration grads s)))
         = (iterations (Q1_optimizer s)
            + steps_for (zip grads (weights (Q1 s))))%nat
    else
      snd (apply_gradients opt_var opt_slots opt_reached opt_creates
                           iteration grads s) = Raise InvalidArgumentError
      /\ iterations
           (Q1_optimizer
              (fst (apply_gradients opt_var opt_slots opt_reached opt_creates
                                    iteration grads s)))
         = iterations (Q1_optimizer s).
Proof.
  pose proof (apply_zip_snd (policy_optimizer s) grads (policy s)) as Sp.
  pose proof (apply_zip_iterations (policy_optimizer s) grads (policy s)) as Ip.
  pose proof (apply_zip_prefix (policy_optimizer s) grads (policy s)) as Wp.
  pose proof (apply_zip_snd (Q1_optimizer s)
                (slice 0 (length (weights (Q1 s))) grads) (Q1 s)) as S1.
  pose proof (apply_zip_iterations (Q1_optimizer s)
                (slice 0 (length (weights (Q1 s))) grads) (Q1 s)) as I1.
  pose proof (apply_zip_prefix (Q1_optimizer s)
                (slice 0 (length (weights (Q1 s))) grads) (Q1 s)) as W1.
  rewrite prefix_update_slice in W1. rewrite zip_slice_0 in S1, I1, W1.
  unfold_apply_gradients.
  destruct (policy_only (args s)).
  - destruct (well_shaped (zip grads (weights (policy s)))); simpl; auto.
  - destruct (well_shaped (zip grads (weights (Q1 s)))).
    + specialize (W1 eq_refl).
      destruct (double_Q (args s)); simpl; rewrite S1; simpl;
        rewrite <- W1, <- I1; all_paths.
    + destruct (double_Q (args s)); simpl; rewrite S1; simpl; auto.
Qed.


(** *** Construction *)

Lemma set_weights_weights (m m' : Module) (ws : list tensor) :
  Module_set_weights m ws = Ok m' -> weights m' = ws /\ name m' = name m.
Proof.
  unfold Module_set_weights. destruct (same_shapes ws (weights m));
    intros H; inversion H; subst; split; reflexivity.
Qed.

Lemma PolynomialDecay_Ok (schedule sch : list R) :
  PolynomialDecay schedule = Ok sch -> sch = schedule.
Proof.
  unfold PolynomialDecay. destruct (_ && _); intros H; inversion H; reflexivity.
Qed.

(** What a successful construction returns. *)
Lemma init_Ok (init : Initializer) (obs_space act_space : space) a s :
  __init__ os_init init obs_space act_space a = Ok s ->
  exists od ad,
    args s = a
    /\ layout a = Ok (target_models s, models s, optimizers s)
    /\ policy s
       = MLPNet init od (num_hidden_layers a) (num_hidden_units a) (ad * 2)
                "policy"
    /\ policy_target s
       = MLPNet init od (num_hidden_layers a) (num_hidden_units a) (ad * 2)
                "policy_target"
    /\ Q1 s = MLPNet init (od + ad) (num_hidden_layers a) (num_hidden_units a)
                     1 "Q1"
    /\ Q2 s = MLPNet init (od + ad) (num_hidden_layers a) (num_hidden_units a)
                     1 "Q2"
    /\ Q1_target s = mkModule "Q1_target" (weights (Q1 s))
    /\ Q2_target s = mkModule "Q2_target" (weights (Q2 s))
    /\ policy_optimizer s = Adam os_init (policy_lr_schedule a) "policy_adam_opt"
    /\ Q1_optimizer s = Adam os_init (value_lr_schedule a) "Q1_adam_opt"
    /\ Q2_optimizer s = Adam os_init (value_lr_schedule a) "Q2_adam_opt"
    /\ alpha_model s
       = (if alpha_is_auto (alpha a) then Some (AlphaModel init "alpha")
          else None)
    /\ alpha_optimizer s
       = (if alpha_is_auto (alpha a)
          then Some (Adam os_init (alpha_lr_schedule a) "alpha_adam_opt")
          else None).
Proof.
  unfold __init__, rbind.
  destruct (assert (is_Box obs_space)); [| discriminate].
  destruct (assert (is_Box act_space)); [| discriminate].
  destruct (match obs_dim a with Some d => Ok d | None => shape0 obs_space end)
    as [od |]; [| discriminate].
  destruct (match act_dim a with Some d => Ok d | None => shape0 act_space end)
    as [ad |]; [| discriminate].
  destruct (PolynomialDecay (policy_lr_schedule a)) as [sp |] eqn:Ep;
    [| discriminate].
  destruct (Module_set_weights _ _) as [q1t |] eqn:E1; [| discriminate].
  destruct (PolynomialDecay (value_lr_schedule a)) as [sv |] eqn:Ev;
    [| discriminate].
  destruct (Module_set_weights _ _) as [q2t |] eqn:E2 in |- *; [| discriminate].
  destruct (layout a) as [[[tm ms] os] |]; [| discriminate].
  apply PolynomialDecay_Ok in Ep, Ev. subst sp sv.
  assert (Hal : (if alpha_is_auto (alpha a)
                 then match PolynomialDecay (alpha_lr_schedule a) with
                      | Ok sch => Ok (Some (Adam os_init sch "alpha_adam_opt"))
                      | Raise e => Raise e
                      end
                 else Ok None)
                = Ok (if alpha_is_auto (alpha a)
                      then Some (Adam os_init (alpha_lr_schedule a)
                                      "alpha_adam_opt")
                      else None)
                \/ exists e,
                    (if alpha_is_auto (alpha a)
                     then match PolynomialDecay (alpha_lr_schedule a) with
                          | Ok sch =>
                              Ok (Some (Adam os_init sch "alpha_adam_opt"))
                          | Raise e => Raise e
                          end
                     else Ok None) = Raise e).
  { destruct (alpha_is_auto (alpha a)); [| left; reflexivity].
    destruct (PolynomialDecay (alpha_lr_schedule a)) as [sa |] eqn:Ea.
    - apply PolynomialDecay_Ok in Ea. subst sa. left. reflexivity.
    - right. eexists. reflexivity. }
  destruct Hal as [Hal | [e Hal]]; rewrite Hal; [| discriminate].
  intros H. inversion H; subst; clear H. simpl.
  apply set_weights_weights in E1 as [W1 N1].
  apply set_weights_weights in E2 as [W2 N2].
  exists od, ad. repeat split; try reflexivity.
  - destruct q1t; simpl in *; subst; reflexivity.
  - destruct q2t; simpl in *; subst; reflexivity.
Qed.

Lemma init_well_formed (init : Initializer) (obs_space act_space : space) a s :
  __init__ os_init init obs_space act_space a = Ok s -> well_formed s.
Proof.
  intros H. apply init_Ok in H
    as (od & ad & Ha & Hl & Hp & Hpt & H1 & H2 & H1t & H2t & Hpo & H1o & H2o
        & Ham & Hao).
  unfold well_formed.
  rewrite Ha, Hl, Hp, Hpt, H1, H2, H1t, H2t, Hpo, H1o, H2o, Ham, Hao.
  repeat split. destruct (alpha_is_auto (alpha a)).
  - eexists _, _. repeat split.
  - split; reflexivity.
Qed.

Lemma soft_update_name (t : R) (source target m : Module) :
  soft_update t source target = Ok m -> name m = name target.
Proof.
  unfold soft_update, rbind.
  destruct (rmapM _ _); [| discriminate].
  intros H. apply set_weights_weights in H as [_ Hn]. exact Hn.
Qed.

(** *** What training leaves alone *)


Lemma bind_skeleton {A B : Type} (c : M A) (k : A -> M B) :
  (forall s, skeleton (fst (c s)) = skeleton s) ->
  (forall x s, skeleton (fst (k x s)) = skeleton s) ->
  forall s, skeleton (fst (bind c k s)) = skeleton s.
Proof.
  intros Hc Hk s. unfold bind. specialize (Hc s).
  destruct (c s) as [s' [x | e]]; simpl in *; [| exact Hc].
  rewrite Hk. exact Hc.
Qed.

Lemma step_policy_skeleton (grad : list tensor) s :
  skeleton (fst (step_policy opt_var opt_slots opt_reached opt_creates grad s))
  = skeleton s.
Proof.
  destruct (apply_zip_skeleton (policy_optimizer s) grad (policy s))
    as (Hn & Hno & Hlr).
  unfold step_policy, skeleton. simpl. rewrite Hn, Hno, Hlr. reflexivity.
Qed.

Lemma step_Q1_skeleton (grad : list tensor) s :
  skeleton (fst (step_Q1 opt_var opt_slots opt_reached opt_creates grad s))
  = skeleton s.
Proof.
  destruct (apply_zip_skeleton (Q1_optimizer s) grad (Q1 s))
    as (Hn & Hno & Hlr).
  unfold step_Q1, skeleton. simpl. rewrite Hn, Hno, Hlr. reflexivity.
Qed.

Lemma step_Q2_skeleton (grad : list tensor) s :
  skeleton (fst (step_Q2 opt_var opt_slots opt_reached opt_creates grad s))
  = skeleton s.
Proof.
  destruct (apply_zip_skeleton (Q2_optimizer s) grad (Q2 s))
    as (Hn & Hno & Hlr).
  unfold step_Q2, skeleton. simpl. rewrite Hn, Hno, Hlr. reflexivity.
Qed.

Lemma step_alpha_skeleton (grad : list tensor) s :
  skeleton (fst (step_alpha opt_var opt_slots opt_reached opt_creates grad s))
  = skeleton s.
Proof.
  unfold step_alpha, bind, try, get_optimizer, get_module.
  destruct (alpha_optimizer s) as [o |] eqn:Eo; [| reflexivity].
  destruct (alpha_model s) as [m |] eqn:Em; [| reflexivity].
  destruct (apply_zip_skeleton o grad m) as (Hn & Hno & Hlr).
  unfold skeleton. simpl. rewrite Hn, Hno, Hlr, Eo, Em. reflexivity.
Qed.

Lemma update_target_skeleton s :
  skeleton (fst (update_Q1_target s)) = skeleton s
  /\ skeleton (fst (update_Q2_target s)) = skeleton s
  /\ skeleton (fst (update_policy_target s)) = skeleton s.
Proof.
  unfold update_Q1_target, update_Q2_target, update_policy_target, bind, try,
    modify.
  repeat split;
    match goal with
    | |- context [soft_update ?t ?a ?b] =>
        destruct (soft_update t a b) as [m |] eqn:E; [| reflexivity];
        apply soft_update_name in E; unfold skeleton; simpl; rewrite E;
        reflexivity
    end.
Qed.

Lemma apply_gradients_skeleton (iteration : Z) (grads : list tensor) s :
  skeleton (fst (apply_gradients opt_var opt_slots opt_reached opt_creates
                                 iteration grads s))
  = skeleton s.
Proof.
  revert s. unfold apply_gradients.
  repeat first
    [ progress intros
    | apply step_policy_skeleton | apply step_Q1_skeleton
    | apply step_Q2_skeleton | apply step_alpha_skeleton
    | apply update_target_skeleton
    | apply bind_skeleton
    | reflexivity
    | match goal with
      | |- context [if ?b then _ else _] => destruct b
      end ].
Qed.


(** C2.  After a successful construction the two critic targets hold the
    parameters of their critics, but the policy target holds the
    initializer's own draw for the network named [policy_target]: the
    policy's parameters are never copied into it. *)
Theorem init_target_parameters (init : Initializer)
        (obs_space act_space : space) a s :
  __init__ os_init init obs_space act_space a = Ok s ->
  weights (Q1_target s) = weights (Q1 s)
  /\ weights (Q2_target s) = weights (Q2 s)
  /\ exists od ad,
      weights (policy s)
      = init_mlp init "policy" od (num_hidden_layers a) (num_hidden_units a)
                 (ad * 2)
      /\ weights (policy_target s)
         = init_mlp init "policy_target" od (num_hidden_layers a)
                    (num_hidden_units a) (ad * 2).
Proof.
  intros H. apply init_Ok in H
    as (od & ad & Ha & Hl & Hp & Hpt & H1 & H2 & H1t & H2t & _).
  rewrite H1t, H2t, Hp, Hpt. simpl. repeat split. exists od, ad. split; reflexivity.
Qed.

(** C4 (as amended).  Under [policy_only] a constructed group has no target
    modules and no critics: its trainable modules are the policy, followed
    by the entropy-coefficient module when [alpha] is ['auto'], and its
    optimizers are the policy optimizer, followed by the entropy-coefficient
    optimizer when [alpha] is ['auto']. *)
Theorem init_policy_only (init : Initializer) (obs_space act_space : space)
        a s :
  policy_only a = true ->
  __init__ os_init init obs_space act_space a = Ok s ->
  target_models s = []
  /\ models s
     = r_policy :: (if alpha_is_auto (alpha a) then [r_alpha_model] else [])
  /\ optimizers s
     = r_policy_optimizer
         :: (if alpha_is_auto (alpha a) then [r_alpha_optimizer] else []).
Proof.
  intros Hpo H. apply init_Ok in H as (od & ad & Ha & Hl & _).
  unfold layout in Hl. rewrite Hpo in Hl. simpl in Hl.
  destruct (alpha_is_auto (alpha a)); inversion Hl; repeat split.
Qed.

(** C8 (as amended).  With [policy_only] false, [double_Q] true and [target]
    false no group is constructed: the tuples cannot be laid out, the
    assertion raises, and [__init__] ends in an exception. *)
Theorem init_double_Q_needs_target (init : Initializer)
        (obs_space act_space : space) a :
  policy_only a = false -> double_Q a = true -> target a = false ->
  layout a = Raise AssertionError
  /\ exists e, __init__ os_init init obs_space act_space a = Raise e.
Proof.
  intros Hpo Hdq Ht.
  assert (Hl : layout a = Raise AssertionError).
  { unfold layout. rewrite Hpo, Hdq, Ht. reflexivity. }
  split; [exact Hl |].
  destruct (__init__ os_init init obs_space act_space a) as [s | e] eqn:E.
  - apply init_Ok in E as (od & ad & _ & Hl' & _). congruence.
  - exists e. reflexivity.
Qed.


(** *** Snapshots *)

(** A well-formed group taken apart: one case per admissible combination of
    flags, with the tuples and names made explicit. *)
Ltac split_group s :=
  let a := fresh "a" in
  destruct s as [a [] [] [] [] [] [] [] [] [] ? ? ? ? ?];
  destruct a as [? ? ? ? ? ? ? ? [] [] [] [] ? ? ?].

Ltac use_well_formed H :=
  let Hl := fresh "Hl" in
  let Hal := fresh "Hal" in
  let Hn := fresh "Hn" in
  let Hno := fresh "Hno" in
  unfold well_formed in H; simpl in H;
  destruct H as (Hl & ? & ? & ? & ? & ? & ? & ? & ? & ? & Hal);
  unfold layout in Hl; simpl in Hl; try discriminate Hl;
  first [ destruct Hal as ([] & [] & ? & ? & Hn & Hno); simpl in Hn, Hno
        | destruct Hal as (? & ?) ];
  inversion Hl; clear Hl; subst.

Ltac open_group s H := split_group s; use_well_formed H.


Ltac invert_shapes :=
  repeat match goal with
         | H : Forall2 _ _ (_ :: _) |- _ => inversion H; subst; clear H
         | H : Forall2 _ _ [] |- _ => inversion H; subst; clear H
         end.

(** C10.  On a well-formed group (every constructed group is one)
    [get_weights] returns one snapshot per trainable module followed by one
    per target module; [set_weights] of that sequence returns normally and
    leaves the group as it is; and [set_weights] of any sequence of the
    same shapes routes its entries to the same positions, so that
    [get_weights] afterwards returns exactly that sequence. *)
Theorem set_weights_get_weights s :
  well_formed s ->
  exists ws0,
    get_weights s = Ok ws0
    /\ length ws0 = (length (models s) + length (target_models s))%nat
    /\ set_weights ws0 s = (s, Ok tt)
    /\ forall ws,
        Forall2 (fun w w0 => same_shapes w w0 = true) ws ws0 ->
        exists s', set_weights ws s = (s', Ok tt) /\ get_weights s' = Ok ws.
Proof.
  intros H. open_group s H.
  all: cbv -[same_shapes set_weights length].
  all: eexists; split; [reflexivity |]; split; [reflexivity |]; split.
  all: try (cbv -[same_shapes]; rewrite ?same_shapes_refl; reflexivity).
  all: intros ws HF; invert_shapes.
  all: cbv -[same_shapes].
  all: repeat match goal with
              | H : same_shapes _ _ = true |- _ => rewrite H; clear H
              end.
  all: eexists; split; reflexivity.
Qed.

(** *** Checkpoints *)

Lemma rmapM_elem {A B : Type} (f : A -> result B) (l : list A) (l' : list B)
      (y : B) :
  rmapM f l = Ok l' -> y ∈ l' -> exists x, x ∈ l /\ f x = Ok y.
Proof.
  revert l'. induction l as [| x l IH]; intros l' H Hy; simpl in H.
  - inversion H; subst. inversion Hy.
  - destruct (f x) as [y0 |] eqn:Ex; [| discriminate]. simpl in H.
    destruct (rmapM f l) as [ys |]; [| discriminate]. simpl in H.
    inversion H; subst; clear H.
    apply elem_of_cons in Hy as [-> | Hy].
    + exists x. split; [left | exact Ex].
    + destruct (IH ys eq_refl Hy) as (x' & Hx' & Ef).
      exists x'. split; [right; exact Hx' | exact Ef].
Qed.


(** The objects a checkpoint of the group names. *)
Lemma Checkpoint_objects s (ckpt : gmap string objref) (nm : string)
      (o : objref) :
  Checkpoint s = Ok ckpt -> ckpt !! nm = Some o ->
  o ∈ (obj_module <$> models s ++ target_models s)
      ++ (obj_optimizer <$> optimizers s).
Proof.
  unfold Checkpoint, rbind.
  destruct (rmapM _ (models s)) as [mp |] eqn:Em; [| discriminate].
  destruct (rmapM _ (target_models s)) as [tp |] eqn:Et; [| discriminate].
  destruct (rmapM _ (optimizers s)) as [op |] eqn:Eo; [| discriminate].
  intros H Hl. inversion H; subst; clear H.
  unfold dict in Hl. apply elem_of_list_to_map_2 in Hl.
  rewrite elem_of_reverse in Hl.
  rewrite !elem_of_app in Hl. rewrite elem_of_app, fmap_app, elem_of_app.
  destruct Hl as [Hl | [Hl | Hl]].
  - destruct (rmapM_elem _ _ _ _ Em Hl) as (r & Hr & Ef).
    destruct (get_module r s); simpl in Ef; [| discriminate].
    inversion Ef; subst. left. left. apply list_elem_of_fmap_2, Hr.
  - destruct (rmapM_elem _ _ _ _ Et Hl) as (r & Hr & Ef).
    destruct (get_module r s); simpl in Ef; [| discriminate].
    inversion Ef; subst. left. right. apply list_elem_of_fmap_2, Hr.
  - destruct (rmapM_elem _ _ _ _ Eo Hl) as (r & Hr & Ef).
    destruct (get_optimizer r s); simpl in Ef; [| discriminate].
    inversion Ef; subst. right. apply list_elem_of_fmap_2, Hr.
Qed.


Lemma restore_objects_cons (snapshot : gmap string saved) (nm : string)
      (o : objref) (rest : list (string * objref)) s :
  restore_objects snapshot ((nm, o) :: rest) s
  = match snapshot !! nm with
    | Some v =>
        match write_obj o v s with
        | Ok s1 => restore_objects snapshot rest s1
        | Raise e => (s, Raise e)
        end
    | None => restore_objects snapshot rest s
    end.
Proof.
  simpl. destruct (snapshot !! nm) as [v |]; [| reflexivity].
  unfold bind, try, modify. destruct (write_obj o v s); reflexivity.
Qed.

Lemma write_obj_other (o o' : objref) (v : saved) s s' :
  write_obj o' v s = Ok s' -> o <> o' -> read_obj s' o = read_obj s o.
Proof.
  intros Hw Hne.
  destruct o' as [r' | r'], v as [ws | n sl]; simpl in Hw;
    try (inversion Hw; subst; reflexivity).
  - destruct (get_module r' s) as [m |] eqn:Em;
      [| inversion Hw; subst; reflexivity].
    destruct (Module_set_weights m ws) as [m' |]; [| discriminate].
    simpl in Hw. inversion Hw; subst; clear Hw.
    destruct o as [r | r]; [| destruct r, r'; simpl; reflexivity].
    destruct r, r'; simpl; try reflexivity; try congruence.
  - destruct (get_optimizer r' s) as [op |] eqn:Eo;
      inversion Hw; subst; clear Hw; [| reflexivity].
    destruct o as [r | r]; [destruct r, r'; simpl; reflexivity |].
    destruct r, r'; simpl; try reflexivity; try congruence.
Qed.


Lemma restore_objects_other (snapshot : gmap string saved)
      (objs : list (string * objref)) (o : objref) :
  Forall (fun p => snd p <> o) objs ->
  forall s, read_obj (fst (restore_objects snapshot objs s)) o = read_obj s o.
Proof.
  induction 1 as [| [nm o'] rest Hne _ IH]; intros s; [reflexivity |].
  rewrite restore_objects_cons.
  destruct (snapshot !! nm) as [v |]; [| apply IH].
  destruct (write_obj o' v s) as [s1 |] eqn:Ew; [| reflexivity].
  rewrite IH. apply (write_obj_other _ _ _ _ _ Ew). simpl in Hne. congruence.
Qed.





#[local] Transparent apply_zip.

End Properties.

(** * Concrete groups: the theorems at work *)

(** [compute_action_deterministic] on a concrete group. *)
Lemma compute_action_deterministic_witness :
  exists s,
    __init__ tt demo_init demo_space demo_space
             (demo_args false true true alpha_auto true (1 / 2) 2) = Ok s
    /\ compute_action demo_forward (fun _ _ => 0) [[1; 2]] s
       = Ok ([[1; 2]], logp_scalar 0).
Proof.
  eexists. split; [reflexivity |].
  rewrite (compute_action_deterministic demo_forward) by reflexivity.
  reflexivity.
Defined.

(** [target_update_rule] on a concrete group. *)
Lemma target_update_rule_witness :
  exists s,
    __init__ tt demo_init demo_space demo_space
             (demo_args false true true alpha_auto false (1 / 2) 2) = Ok s
    /\ update_policy_target s
       = (set_policy_target
            (mkModule "policy_target"
               [[1 / 2 * 1 + (1 - 1 / 2) * 4; 1 / 2 * 2 + (1 - 1 / 2) * 5];
                [1 / 2 * 3 + (1 - 1 / 2) * 6]]) s, Ok tt)
    /\ update_Q1_target s
       = (set_Q1_target
            (mkModule "Q1_target" [[1 / 2 * 7 + (1 - 1 / 2) * 7]]) s, Ok tt).
Proof.
  eexists. split; [reflexivity |].
  match goal with
  | |- update_policy_target ?s = _ /\ _ =>
      destruct (target_update_rule s eq_refl eq_refl eq_refl)
        as [(H1 & _ & Hp) _]
  end.
  split; [exact Hp | exact H1].
Defined.

(** [apply_gradients_off_schedule] on a concrete group. *)
Lemma apply_gradients_off_schedule_witness :
  exists s,
    __init__ tt demo_init demo_space demo_space
             (demo_args false true true alpha_auto false (1 / 2) 2) = Ok s
    /\ exists s',
      apply_gradients demo_var demo_slots demo_reached demo_creates 1
                      [[1]; [1]; [1; 1]; [1]; [1]] s
      = (s', Ok tt)
      /\ policy_target s' = policy_target s
      /\ Q1_target s' = Q1_target s
      /\ Q2_target s' = Q2_target s
      /\ policy_optimizer s' = policy_optimizer s
      /\ iterations (Q1_optimizer s') = 1%nat
      /\ iterations (Q2_optimizer s') = 1%nat.
Proof.
  eexists. split; [reflexivity |].
  match goal with
  | |- exists s', apply_gradients _ _ _ _ _ _ ?s = _ /\ _ =>
      destruct (apply_gradients_off_schedule demo_var demo_slots demo_reached
                  demo_creates s 1 [[1]; [1]; [1; 1]; [1]; [1]] eq_refl)
        as (s' & r & Hr & Hpt & H1t & H2t & Hpo & _ & _ & _ & _ & Hfit);
      [vm_compute; discriminate | vm_compute; discriminate |];
      destruct (Hfit eq_refl) as (Hok & H1 & H2)
  end.
  exists s'. rewrite Hok in Hr.
  repeat split; try assumption. exact (H2 eq_refl).
Defined.

(** C5 as stated fails: called off schedule without a gradient, the call
    returns normally and neither critic optimizer has advanced. *)
Lemma apply_gradients_off_schedule_no_step :
  exists s,
    __init__ tt demo_init demo_space demo_space
             (demo_args false true true alpha_auto false (1 / 2) 2) = Ok s
    /\ policy_only (args s) = false
    /\ (1 mod delay_update (args s))%Z = 1%Z
    /\ snd (apply_gradients demo_var demo_slots demo_reached demo_creates 1
                            [] s) = Ok tt
    /\ iterations
         (Q1_optimizer
            (fst (apply_gradients demo_var demo_slots demo_reached
                                  demo_creates 1 [] s)))
       = iterations (Q1_optimizer s)
    /\ iterations
         (Q2_optimizer
            (fst (apply_gradients demo_var demo_slots demo_reached
                                  demo_creates 1 [] s)))
       = iterations (Q2_optimizer s).
Proof.
  eexists. split; [reflexivity |]. repeat split.
Defined.

(** The failing input of C2: the initializer draws different values for
    [policy] and [policy_target]; after construction they still differ,
    while both critic targets equal their critics. *)
Lemma init_target_parameters_witness :
  exists s,
    __init__ tt demo_init demo_space demo_space
             (demo_args false true true alpha_auto false (1 / 2) 2) = Ok s
    /\ weights (Q1_target s) = weights (Q1 s)
    /\ weights (Q2_target s) = weights (Q2 s)
    /\ weights (policy s) = [[1; 2]; [3]]
    /\ weights (policy_target s) = [[4; 5]; [6]].
Proof.
  eexists. split; [reflexivity |].
  match goal with
  | |- weights (Q1_target ?s) = _ /\ _ =>
      destruct (init_target_parameters tt demo_init demo_space demo_space
                  (demo_args false true true alpha_auto false (1 / 2) 2) s
                  eq_refl)
        as (H1 & H2 & od & ad & Hp & Hpt)
  end.
  split; [exact H1 |]. split; [exact H2 |].
  split; [rewrite Hp | rewrite Hpt]; reflexivity.
Defined.

(** [init_policy_only] on a concrete group. *)
Lemma init_policy_only_witness :
  exists s,
    __init__ tt demo_init demo_space demo_space
             (demo_args true false false (alpha_value 1) false (1 / 2) 2) = Ok s
    /\ target_models s = []
    /\ models s = [r_policy]
    /\ optimizers s = [r_policy_optimizer].
Proof.
  eexists. split; [reflexivity |].
  exact (init_policy_only tt demo_init demo_space demo_space
           (demo_args true false false (alpha_value 1) false (1 / 2) 2) _
           eq_refl eq_refl).
Defined.

(** C4 as stated fails: [policy_only] with [alpha = 'auto'] builds two
    trainable modules and two optimizers. *)
Lemma init_policy_only_alpha_auto :
  exists s,
    __init__ tt demo_init demo_space demo_space
             (demo_args true false false alpha_auto false (1 / 2) 2) = Ok s
    /\ policy_only (args s) = true
    /\ models s = [r_policy; r_alpha_model]
    /\ optimizers s = [r_policy_optimizer; r_alpha_optimizer].
Proof.
  eexists. split; [reflexivity |]. repeat split.
Defined.

(** [init_double_Q_needs_target] on a concrete group. *)
Lemma init_double_Q_needs_target_witness :
  layout (demo_args false true false alpha_auto false (1 / 2) 2)
  = Raise AssertionError
  /\ exists e,
      __init__ tt demo_init demo_space demo_space
               (demo_args false true false alpha_auto false (1 / 2) 2)
      = Raise e.
Proof.
  exact (init_double_Q_needs_target tt demo_init demo_space demo_space
           (demo_args false true false alpha_auto false (1 / 2) 2)
           eq_refl eq_refl eq_refl).
Defined.

(** C8 as stated fails: with [policy_only] the flags [double_Q = true],
    [target = false] are not examined and the group is constructed. *)
Lemma init_double_Q_without_target_policy_only :
  exists s,
    __init__ tt demo_init demo_space demo_space
             (demo_args true true false (alpha_value 1) false (1 / 2) 2) = Ok s
    /\ double_Q (args s) = true
    /\ target (args s) = false
    /\ models s = [r_policy].
Proof.
  eexists. split; [reflexivity |]. repeat split.
Defined.

(** C3 as stated fails: the policy has two weight tensors, [grads] has one;
    the call returns normally, the first weight is updated and the second
    is left as it was. *)
Lemma apply_gradients_short_grads :
  exists s,
    __init__ tt demo_init demo_space demo_space
             (demo_args true false false (alpha_value 1) false (1 / 2) 2) = Ok s
    /\ weights (policy s) = [[1; 2]; [3]]
    /\ snd (apply_gradients demo_var demo_slots demo_reached demo_creates 0 [[1; 1]] s) = Ok tt
    /\ weights (policy (fst (apply_gradients demo_var demo_slots demo_reached demo_creates 0 [[1; 1]] s)))
       = [[1 - 1; 2 - 1]; [3]]
    /\ iterations
         (policy_optimizer
            (fst (apply_gradients demo_var demo_slots demo_reached demo_creates 0 [[1; 1]] s)))
       = 1%nat.
Proof.
  eexists. split; [reflexivity |]. repeat split.
Defined.

(** [set_weights_get_weights] on a concrete group. *)
Lemma set_weights_get_weights_witness :
  exists s ws0,
    __init__ tt demo_init demo_space demo_space
             (demo_args false true true alpha_auto false (1 / 2) 2) = Ok s
    /\ get_weights s = Ok ws0
    /\ length ws0 = 7%nat
    /\ set_weights ws0 s = (s, Ok tt).
Proof.
  eexists.
  match goal with
  | |- exists ws0, __init__ _ _ _ _ ?a = Ok ?s /\ _ =>
      assert (E : __init__ tt demo_init demo_space demo_space a = Ok s)
        by reflexivity;
      destruct (set_weights_get_weights s
                  (init_well_formed tt demo_init demo_space demo_space a s E))
        as (ws0 & Hg & Hlen & Hset & _)
  end.
  exists ws0. repeat split; assumption.
Defined.



(** The schedule at work: twin critics, targets, learned entropy
    coefficient and a delay period of 2.  Over the iterations 0, 1, 2, 3
    the critic optimizers step four times, the policy and
    entropy-coefficient optimizers twice. *)
Example delayed_schedule :
  demo_steps
    (demo_run [0; 1; 2; 3]%Z [[1]; [1]; [1; 1]; [1]; [1]]
       (__init__ tt demo_init demo_space demo_space
                 (demo_args false true true alpha_auto false (1 / 2) 2)))
  = Ok (4, 4, 2, Some 2)%nat.
Proof. vm_compute. reflexivity. Qed.

(** A delay period of 0 makes [iteration % delay_update] raise after the
    critic has already been stepped. *)
Example zero_delay_raises :
  rbind (__init__ tt demo_init demo_space demo_space
                  (demo_args false false true alpha_auto false (1 / 2) 0))
        (fun s =>
           let x := apply_gradients demo_var demo_slots demo_reached demo_creates 0
                                    [[1]; [1; 1]; [1]; [1]] s in
           Ok (snd x, iterations (Q1_optimizer (fst x))))
  = Ok (Raise ZeroDivisionError, 1%nat).
Proof. vm_compute. reflexivity. Qed.

(** A gradient of the wrong shape: in the single-critic example group the
    second slice of [demo_grads] does not fit the policy.  On a delayed
    step critic 1 is stepped, then the policy optimizer raises, and no
    other counter has moved. *)
Example misshaped_policy_gradient :
  (snd (apply_gradients demo_var demo_slots demo_reached demo_creates 0
                        demo_grads (demo_group demo_single)),
   demo_steps
     (Ok (fst (apply_gradients demo_var demo_slots demo_reached demo_creates
                               0 demo_grads (demo_group demo_single)))))
  = (Raise InvalidArgumentError, Ok (1, 0, 0, Some 0)%nat).
Proof. vm_compute. reflexivity. Qed.

(** The checkpoint of a group that has never been stepped holds no
    optimizer state: loaded into the trained group it restores the
    weights and leaves the four step counters where they were. *)
Example load_unstepped_checkpoint :
  (demo_steps
     (Ok (fst (load_weights "d" 1
                 (demo_store (save_weights "d" 1 ∅ (demo_group demo_twin)))
                 demo_trained))),
   read_obj
     (fst (load_weights "d" 1
             (demo_store (save_weights "d" 1 ∅ (demo_group demo_twin)))
             demo_trained))
     (obj_module r_policy))
  = (Ok (1, 1, 1, Some 1)%nat, Some (saved_weights [[1; 2]; [3]])).
Proof. vm_compute. reflexivity. Qed.

(** * Further properties *)

Section MoreProperties.

Context {OS : Type}.
Variable os_init : OS.
Variable opt_var : Optimizer (OS := OS) -> nat -> tensor -> tensor -> tensor.
Variable opt_slots : Optimizer (OS := OS) -> list (tensor * tensor) -> OS.
Variable opt_reached :
  Optimizer (OS := OS) -> list (tensor * tensor) -> nat -> bool.
Variable opt_creates : Optimizer (OS := OS) -> list (tensor * tensor) -> bool.
Variable forward : Module -> tensor2 -> tensor2.

Implicit Types (s : PolicyWithQs (OS := OS)) (a : Args).

(** *** The tuples built by [__init__] *)

(** X1.  In every constructed group the optimizers are as many as the
    trainable modules and stand at the same positions: the i-th optimizer
    is the one built for the i-th module.  The target modules are either
    none or, in order, the targets of the live networks of the group; no
    module occurs twice. *)
Theorem init_tuples_aligned (init : Initializer) (obs_space act_space : space)
        a s :
  __init__ os_init init obs_space act_space a = Ok s ->
  length (optimizers s) = length (models s)
  /\ map optimizer_of (models s) = map Some (optimizers s)
  /\ (target_models s = [] \/ target_models s = omap target_of (models s))
  /\ NoDup (models s ++ target_models s).
Proof.
  intros H. apply init_Ok in H as (od & ad & _ & Hl & _).
  unfold layout in Hl.
  destruct (policy_only a), (double_Q a), (target a), (alpha_is_auto (alpha a));
    simpl in Hl; inversion Hl; subst; clear Hl;
    (split; [reflexivity |]); (split; [reflexivity |]);
    (split; [first [left; reflexivity | right; reflexivity] |]);
    repeat (apply NoDup_cons; split;
            [rewrite ?elem_of_cons, elem_of_nil; intuition discriminate |]);
    apply NoDup_nil_2.
Qed.

(** *** What no method changes *)

Lemma skeleton_step_module s (r : mref) (m m' : Module) :
  get_module r s = Ok m -> name m' = name m ->
  skeleton (set_module r m' s) = skeleton s.
Proof.
  destruct r; simpl; intros Hm Hn;
    try (destruct (alpha_model s) as [m0 |] eqn:Ea; [| discriminate]);
    inversion Hm; subst; clear Hm;
    unfold skeleton; simpl; rewrite ?Ea; simpl; rewrite Hn; reflexivity.
Qed.

Lemma set_weights_from_skeleton (ws : list (list tensor)) :
  forall (i : nat) s, skeleton (fst (set_weights_from i ws s)) = skeleton s.
Proof.
  induction ws as [| w ws IH]; intros i s; [reflexivity |].
  simpl. unfold bind, try, modify.
  destruct (if Nat.ltb i (length (models s)) then _ else _) as [r |];
    [| reflexivity].
  destruct (get_module r s) as [m |] eqn:Em; [| reflexivity].
  destruct (Module_set_weights m w) as [m' |] eqn:Es; [| reflexivity].
  rewrite IH. apply set_weights_weights in Es as [_ Hn].
  exact (skeleton_step_module s r m m' Em Hn).
Qed.

Lemma write_obj_skeleton (o : objref) (v : saved) s s' :
  write_obj o v s = Ok s' -> skeleton s' = skeleton s.
Proof.
  destruct o as [r | r], v as [ws | n sl]; simpl; intros H;
    try (inversion H; reflexivity).
  - destruct (get_module r s) as [m |] eqn:Em; [| inversion H; reflexivity].
    destruct (Module_set_weights m ws) as [m' |] eqn:Es; [| discriminate].
    simpl in H. inversion H; subst; clear H.
    apply set_weights_weights in Es as [_ Hn].
    exact (skeleton_step_module s r m m' Em Hn).
  - destruct r; simpl in H; try (inversion H; reflexivity).
    destruct (alpha_optimizer s) eqn:Eo; inversion H; [| reflexivity].
    unfold skeleton. simpl. rewrite Eo. reflexivity.
Qed.

Lemma restore_objects_skeleton (snapshot : gmap string saved)
      (objs : list (string * objref)) :
  forall s, skeleton (fst (restore_objects snapshot objs s)) = skeleton s.
Proof.
  induction objs as [| [nm o] rest IH]; intros s; [reflexivity |].
  rewrite restore_objects_cons.
  destruct (snapshot !! nm) as [v |]; [| apply IH].
  destruct (write_obj o v s) as [s1 |] eqn:Ew; [| reflexivity].
  rewrite IH. exact (write_obj_skeleton o v s s1 Ew).
Qed.

(** X2.  [apply_gradients] and the three target updates change weights
    and optimizer state only: the configuration, the tuples [models],
    [target_models] and [optimizers], every name and every learning-rate
    schedule are after the call what they were before it, also when the
    call ends in an exception. *)
Theorem training_keeps_skeleton s (iteration : Z) (grads : list tensor) :
  skeleton (fst (apply_gradients opt_var opt_slots opt_reached opt_creates iteration grads s))
  = skeleton s
  /\ skeleton (fst (update_Q1_target s)) = skeleton s
  /\ skeleton (fst (update_Q2_target s)) = skeleton s
  /\ skeleton (fst (update_policy_target s)) = skeleton s.
Proof.
  split;
    [ apply (apply_gradients_skeleton opt_var opt_slots opt_reached
               opt_creates)
    | apply update_target_skeleton ].
Qed.

(** X3.  [set_weights] and [load_weights] change weights and optimizer
    state only, whatever sequence or store they are given and also when
    they end in an exception: configuration, tuples, names and schedules
    stay as [__init__] set them. *)
Theorem restoring_keeps_skeleton s (ws : list (list tensor))
        (dir : string) (iteration : Z)
        (store : gmap string (gmap string saved)) :
  skeleton (fst (set_weights ws s)) = skeleton s
  /\ skeleton (fst (load_weights dir iteration store s)) = skeleton s.
Proof.
  split; [apply set_weights_from_skeleton |].
  unfold load_weights, bind, try.
  destruct (Checkpoint s) as [ckpt |]; [| reflexivity].
  unfold Checkpoint_restore.
  destruct (store !! _) as [snapshot |]; [| reflexivity].
  apply restore_objects_skeleton.
Qed.


(** *** Which gradient reaches which weight *)

Lemma slice_lookup {A : Type} (a b : nat) (l : list A) (i : nat) :
  slice a b l !! i = if Nat.ltb i (b - a) then l !! (a + i)%nat else None.
Proof.
  unfold slice. destruct (Nat.ltb_spec i (b - a)) as [Hlt | Hge].
  - rewrite lookup_take_lt by exact Hlt. apply lookup_drop.
  - apply lookup_ge_None. rewrite length_take. lia.
Qed.

Lemma prefix_update_lookup (o : Optimizer) (grads ws : list tensor) (i : nat) :
  prefix_update opt_var o grads ws !! i
  = routed opt_var o i (grads !! i) (ws !! i).
Proof.
  unfold prefix_update, routed.
  rewrite (take_ge (zip grads ws)) by (rewrite length_zip; lia).
  destruct (grads !! i) as [g |] eqn:Eg; destruct (ws !! i) as [w |] eqn:Ew.
  - rewrite lookup_app_l
      by (rewrite length_imap, length_zip;
          apply lookup_lt_Some in Eg, Ew; lia).
    rewrite list_lookup_imap.
    assert (Hz : zip grads ws !! i = Some (g, w)).
    { apply lookup_zip_with_Some. exists g, w. auto. }
    rewrite Hz. reflexivity.
  - apply lookup_ge_None. apply lookup_ge_None in Ew.
    rewrite length_app, length_imap, length_zip, length_drop. lia.
  - apply lookup_ge_None in Eg.
    rewrite lookup_app_r by (rewrite length_imap, length_zip; lia).
    rewrite length_imap, length_zip, lookup_drop, <- Ew. f_equal.
    apply lookup_lt_Some in Ew. lia.
  - apply lookup_ge_None. apply lookup_ge_None in Ew.
    rewrite length_app, length_imap, length_zip, length_drop. lia.
Qed.

#[local] Opaque apply_zip.

(** Every path through [apply_gradients] once the flags are known. *)
Ltac unfold_apply_gradients :=
  unfold apply_gradients, step_policy, step_Q1, step_Q2, step_alpha,
    update_policy_target, update_Q1_target, update_Q2_target, is_delayed_step,
    get_optimizer, get_module, Module_trainable_weights in *;
  unfold bind, gets, try, modify, ret.

Ltac all_paths :=
  repeat match goal with
         | |- context [match snd (apply_zip ?v ?sl ?re ?cr ?o ?g ?m)
                       with _ => _ end] =>
             destruct (snd (apply_zip v sl re cr o g m)); simpl; auto
         | |- context [match soft_update ?t ?a ?b with _ => _ end] =>
             destruct (soft_update t a b); simpl; auto
         | |- context [if ?b then _ else _] => destruct b; simpl; auto
         | |- context [match alpha_optimizer ?x with _ => _ end] =>
             destruct (alpha_optimizer x); simpl; auto
         | |- context [match alpha_model ?x with _ => _ end] =>
             destruct (alpha_model x); simpl; auto
         end.

Lemma apply_gradients_Q1 s (iteration : Z) (grads : list tensor) :
  policy_only (args s) = false ->
  well_shaped (zip (q1_grad s grads) (weights (Q1 s))) = true ->
  weights (Q1 (fst (apply_gradients opt_var opt_slots opt_reached opt_creates iteration grads s)))
  = prefix_update opt_var (Q1_optimizer s) grads (weights (Q1 s)).
Proof.
  intros Hpo Hs.
  pose proof (apply_zip_prefix opt_var opt_slots opt_reached opt_creates (Q1_optimizer s) (q1_grad s grads) (Q1 s)
                Hs) as Hq.
  unfold q1_grad in *. rewrite prefix_update_slice in Hq.
  unfold_apply_gradients. rewrite Hpo. simpl. all_paths.
Qed.

Lemma apply_gradients_Q2 s (iteration : Z) (grads : list tensor) :
  policy_only (args s) = false -> double_Q (args s) = true ->
  well_shaped (zip (q1_grad s grads) (weights (Q1 s))) = true ->
  well_shaped (zip (q2_grad s grads) (weights (Q2 s))) = true ->
  weights (Q2 (fst (apply_gradients opt_var opt_slots opt_reached opt_creates iteration grads s)))
  = prefix_update opt_var (Q2_optimizer s) (q2_grad s grads) (weights (Q2 s)).
Proof.
  intros Hpo Hdq H1 H2.
  pose proof (apply_zip_snd opt_var opt_slots opt_reached opt_creates (Q1_optimizer s) (q1_grad s grads) (Q1 s))
    as S1.
  rewrite H1 in S1.
  pose proof (apply_zip_prefix opt_var opt_slots opt_reached opt_creates (Q2_optimizer s) (q2_grad s grads) (Q2 s)
                H2) as Hq.
  unfold q1_grad, q2_grad in *.
  unfold_apply_gradients. rewrite Hpo, Hdq. simpl in *. rewrite S1. simpl.
  all_paths.
Qed.

(** X4.  In a configuration that is not [policy_only], when every
    gradient handed to a critic has the shape of its weight, then
    whatever the iteration and whether or not the call later fails:
    weight [i] of critic 1 is stepped with [grads[i]], and under
    [double_Q] weight [i] of critic 2 is stepped with [grads[n_q + i]] for
    [i < n_q], where [n_q] is the weight count of critic 1; a weight whose
    gradient is missing keeps its value. *)
Theorem critics_routing s (iteration : Z) (grads : list tensor) (i : nat) :
  policy_only (args s) = false ->
  critic_grads_fit s grads = true ->
  weights (Q1 (fst (apply_gradients opt_var opt_slots opt_reached opt_creates iteration grads s))) !! i
  = routed opt_var (Q1_optimizer s) i (grads !! i) (weights (Q1 s) !! i)
  /\ weights (Q2 (fst (apply_gradients opt_var opt_slots opt_reached opt_creates iteration grads s)))
       !! i
     = if double_Q (args s)
       then routed opt_var (Q2_optimizer s) i
              (if Nat.ltb i (length (weights (Q1 s)))
               then grads !! (length (weights (Q1 s)) + i)%nat else None)
              (weights (Q2 s) !! i)
       else weights (Q2 s) !! i.
Proof.
  intros Hpo Hfit. unfold critic_grads_fit in Hfit.
  apply andb_true_iff in Hfit as [H1 H2]. split.
  - rewrite (apply_gradients_Q1 s iteration grads Hpo H1).
    apply prefix_update_lookup.
  - destruct (double_Q (args s)) eqn:Hdq.
    + rewrite (apply_gradients_Q2 s iteration grads Hpo Hdq H1 H2).
      unfold q2_grad. rewrite prefix_update_lookup, slice_lookup.
      replace (2 * length (weights (Q1 s)) - length (weights (Q1 s)))%nat
        with (length (weights (Q1 s))) by lia.
      reflexivity.
    + f_equal.
      unfold_apply_gradients. rewrite Hpo, Hdq. simpl.
      all_paths.
Qed.


Lemma apply_gradients_policy s (iteration : Z) (grads : list tensor) :
  policy_only (args s) = false ->
  delay_update (args s) <> 0%Z ->
  (iteration mod delay_update (args s))%Z = 0%Z ->
  critic_grads_fit s grads = true ->
  policy_grads_fit s grads = true ->
  weights (policy (fst (apply_gradients opt_var opt_slots opt_reached opt_creates iteration grads s)))
  = prefix_update opt_var (policy_optimizer s) (policy_grad s grads)
                  (weights (policy s))
  /\ iterations
       (policy_optimizer
          (fst (apply_gradients opt_var opt_slots opt_reached opt_creates iteration grads s)))
     = (iterations (policy_optimizer s)
        + steps_for (zip (policy_grad s grads) (weights (policy s))))%nat.
Proof.
  intros Hpo Hd Hm Hc Hp. apply Z.eqb_neq in Hd. apply Z.eqb_eq in Hm.
  unfold critic_grads_fit in Hc. apply andb_true_iff in Hc as [H1 H2].
  unfold policy_grads_fit in Hp.
  pose proof (apply_zip_snd opt_var opt_slots opt_reached opt_creates (Q1_optimizer s) (q1_grad s grads) (Q1 s))
    as S1.
  rewrite H1 in S1.
  pose proof (apply_zip_snd opt_var opt_slots opt_reached opt_creates (Q2_optimizer s) (q2_grad s grads) (Q2 s))
    as S2.
  pose proof (apply_zip_prefix opt_var opt_slots opt_reached opt_creates (policy_optimizer s) (policy_grad s grads)
                (policy s) Hp) as Wp.
  pose proof (apply_zip_iterations opt_var opt_slots opt_reached opt_creates (policy_optimizer s)
                (policy_grad s grads) (policy s)) as Ip.
  rewrite Hp in Ip.
  unfold q1_grad, q2_grad, policy_grad in *.
  unfold_apply_gradients. rewrite Hpo.
  destruct (double_Q (args s)) eqn:Hdq; rewrite ?Hdq in *; simpl in *;
    rewrite S1; simpl.
  - rewrite H2 in S2. rewrite S2. simpl. rewrite Hd, Hm. simpl.
    rewrite <- Wp, <- Ip. all_paths.
  - rewrite Hd, Hm. simpl. rewrite !Nat.add_0_r in *.
    rewrite <- Wp, <- Ip. all_paths.
Qed.

(** X5.  On a delayed step ([iteration mod delay_update = 0]) of a
    configuration that is not [policy_only], when every gradient handed
    to a critic or to the policy has the shape of its weight: weight [i]
    of the policy is stepped with [grads[2 n_q + i]] under [double_Q] and
    with [grads[n_q + i]] otherwise, also when a later target update
    fails, and a weight whose gradient is missing keeps its value; the
    policy optimizer counts one step, or none when it was handed no
    pair. *)
Theorem policy_routing s (iteration : Z) (grads : list tensor) (i : nat) :
  policy_only (args s) = false ->
  delay_update (args s) <> 0%Z ->
  (iteration mod delay_update (args s))%Z = 0%Z ->
  critic_grads_fit s grads = true ->
  policy_grads_fit s grads = true ->
  weights (policy (fst (apply_gradients opt_var opt_slots opt_reached opt_creates iteration grads s)))
    !! i
  = routed opt_var (policy_optimizer s) i
      (grads !! ((if double_Q (args s) then 2 else 1)
                 * length (weights (Q1 s)) + i)%nat)
      (weights (policy s) !! i)
  /\ iterations
       (policy_optimizer
          (fst (apply_gradients opt_var opt_slots opt_reached opt_creates iteration grads s)))
     = (iterations (policy_optimizer s)
        + steps_for (zip (policy_grad s grads) (weights (policy s))))%nat.
Proof.
  intros Hpo Hd Hm Hc Hp.
  destruct (apply_gradients_policy s iteration grads Hpo Hd Hm Hc Hp)
    as [Hw Hi].
  split; [| exact Hi]. rewrite Hw. unfold policy_grad.
  rewrite prefix_update_lookup, slice_lookup.
  destruct (Nat.ltb_spec i
              ((if double_Q (args s) then 2 else 1) * length (weights (Q1 s))
               + length (weights (policy s))
               - (if double_Q (args s) then 2 else 1)
                 * length (weights (Q1 s)))) as [Hlt | Hge];
    [reflexivity |].
  assert (Hn : weights (policy s) !! i = None)
    by (apply lookup_ge_None; lia).
  rewrite Hn. unfold routed. destruct (grads !! _); reflexivity.
Qed.

(** *** What a call leaves alone *)

(** X6.  Under [policy_only], [apply_gradients] touches the policy and its
    optimizer only: the critics, their optimizers, every target and the
    entropy-coefficient objects are left as they were, also when the
    entropy coefficient is one of the trainable modules. *)
Theorem policy_only_frame s (iteration : Z) (grads : list tensor) :
  policy_only (args s) = true ->
  set_policy (policy s) (set_policy_optimizer (policy_optimizer s)
     (fst (apply_gradients opt_var opt_slots opt_reached opt_creates iteration grads s)))
  = s.
Proof.
  intros Hpo. unfold_apply_gradients. rewrite Hpo. simpl.
  destruct s; reflexivity.
Qed.

(** X7.  With [double_Q] and [target] both false, no call of
    [apply_gradients] changes a target network, critic 2 or the optimizer
    of critic 2, whatever the iteration. *)
Theorem single_critic_no_target_frame s (iteration : Z) (grads : list tensor) :
  double_Q (args s) = false -> target (args s) = false ->
  policy_target (fst (apply_gradients opt_var opt_slots opt_reached opt_creates iteration grads s))
  = policy_target s
  /\ Q1_target (fst (apply_gradients opt_var opt_slots opt_reached opt_creates iteration grads s))
     = Q1_target s
  /\ Q2_target (fst (apply_gradients opt_var opt_slots opt_reached opt_creates iteration grads s))
     = Q2_target s
  /\ Q2 (fst (apply_gradients opt_var opt_slots opt_reached opt_creates iteration grads s)) = Q2 s
  /\ Q2_optimizer (fst (apply_gradients opt_var opt_slots opt_reached opt_creates iteration grads s))
     = Q2_optimizer s.
Proof.
  intros Hdq Ht. unfold_apply_gradients. rewrite Hdq, Ht.
  destruct (policy_only (args s)); simpl; [repeat split |].
  all_paths; repeat split.
Qed.


(** *** Delayed steps: targets and entropy coefficient *)

Lemma last_slice_lookup {A : Type} (l : list A) (i : nat) :
  last_slice l !! i = if Nat.eqb i 0 then last l else None.
Proof.
  unfold last_slice. rewrite lookup_drop.
  destruct (Nat.eqb_spec i 0) as [-> | Hi].
  - rewrite Nat.add_0_r, last_lookup. f_equal. lia.
  - apply lookup_ge_None. lia.
Qed.

(** X8.  On a delayed step of a configuration that is not [policy_only]
    and has [alpha = 'auto'], a call that returns normally has handed the
    entropy-coefficient optimizer the last entry of [grads] as the
    gradient of the first (only) weight, whatever the length of [grads],
    and that optimizer has counted one step (none when [grads] is empty
    and it was handed no pair); no other weight of the module is
    touched. *)
Theorem alpha_gets_last_gradient s (iteration : Z) (grads : list tensor)
        (m : Module) (o : Optimizer) :
  policy_only (args s) = false ->
  delay_update (args s) <> 0%Z ->
  (iteration mod delay_update (args s))%Z = 0%Z ->
  alpha_is_auto (alpha (args s)) = true ->
  alpha_model s = Some m -> alpha_optimizer s = Some o ->
  snd (apply_gradients opt_var opt_slots opt_reached opt_creates iteration grads s) = Ok tt ->
  exists m' o',
    alpha_model (fst (apply_gradients opt_var opt_slots opt_reached opt_creates iteration grads s))
    = Some m'
    /\ alpha_optimizer
         (fst (apply_gradients opt_var opt_slots opt_reached opt_creates iteration grads s))
       = Some o'
    /\ name m' = name m
    /\ iterations o'
       = (iterations o + steps_for (zip (last_slice grads) (weights m)))%nat
    /\ forall i,
        weights m' !! i
        = routed opt_var o i (if Nat.eqb i 0 then last grads else None)
                 (weights m !! i).
Proof.
  intros Hpo Hd Hm Hau Eam Eao.
  apply Z.eqb_neq in Hd. apply Z.eqb_eq in Hm.
  pose proof (apply_zip_snd opt_var opt_slots opt_reached opt_creates o (last_slice grads) m) as Sa.
  pose proof (apply_zip_iterations opt_var opt_slots opt_reached opt_creates o (last_slice grads) m) as Ia.
  pose proof (apply_zip_prefix opt_var opt_slots opt_reached opt_creates o (last_slice grads) m) as Wa.
  destruct (apply_zip_skeleton opt_var opt_slots opt_reached opt_creates o (last_slice grads) m) as (Na & _ & _).
  destruct (well_shaped (zip (last_slice grads) (weights m)));
    [specialize (Wa eq_refl) | clear Wa].
  all: unfold_apply_gradients; rewrite Hpo.
  all: destruct (double_Q (args s)); simpl; rewrite Hd, Hm; simpl;
    rewrite ?Hau; simpl.
  all: repeat (first
                 [ rewrite Eao | rewrite Eam | rewrite Sa
                 | match goal with
                   | |- context [match snd (apply_zip ?v ?sl ?re ?cr ?o0 ?g ?m0)
                                 with _ => _ end] =>
                       destruct (snd (apply_zip v sl re cr o0 g m0))
                   | |- context [match soft_update ?t ?a ?b with _ => _ end] =>
                       destruct (soft_update t a b)
                   | |- context [if target ?a then _ else _] =>
                       destruct (target a)
                   end ]; simpl).
  all: intros Hret; try discriminate Hret.
  all: eexists _, _; split; [reflexivity |]; split; [reflexivity |].
  all: split; [exact Na |]; split; [exact Ia |].
  all: intros i; rewrite <- last_slice_lookup, <- prefix_update_lookup, <- Wa;
    reflexivity.
Qed.


(** X9.  On a delayed step of a group with targets that is not
    [policy_only], when the call returns normally and the stepped policy
    and critic 1 still have the shapes of their targets: the policy
    target and the target of critic 1 become [tau * live + (1 - tau) *
    target], where [live] are the parameters after this call's optimizer
    step, not the ones before it. *)
Theorem delayed_step_targets s (iteration : Z) (grads : list tensor) :
  policy_only (args s) = false ->
  target (args s) = true ->
  delay_update (args s) <> 0%Z ->
  (iteration mod delay_update (args s))%Z = 0%Z ->
  snd (apply_gradients opt_var opt_slots opt_reached opt_creates iteration grads s) = Ok tt ->
  same_shapes
    (weights (policy (fst (apply_gradients opt_var opt_slots opt_reached opt_creates iteration grads s))))
    (weights (policy_target s)) = true ->
  same_shapes
    (weights (Q1 (fst (apply_gradients opt_var opt_slots opt_reached opt_creates iteration grads s))))
    (weights (Q1_target s)) = true ->
  weights (policy_target
             (fst (apply_gradients opt_var opt_slots opt_reached opt_creates iteration grads s)))
  = ema (tau (args s))
        (weights (policy
                    (fst (apply_gradients opt_var opt_slots opt_reached opt_creates iteration grads s))))
        (weights (policy_target s))
  /\ weights (Q1_target
                (fst (apply_gradients opt_var opt_slots opt_reached opt_creates iteration grads s)))
     = ema (tau (args s))
           (weights (Q1
                       (fst (apply_gradients opt_var opt_slots opt_reached opt_creates iteration grads s))))
           (weights (Q1_target s)).
Proof.
  intros Hpo Ht Hd Hm. apply Z.eqb_neq in Hd. apply Z.eqb_eq in Hm.
  unfold_apply_gradients. rewrite Hpo.
  destruct (double_Q (args s)); simpl; rewrite Hd, Hm; simpl; rewrite ?Ht;
    simpl.
  all: repeat
         (match goal with
          | |- context [match snd (apply_zip ?v ?sl ?re ?cr ?o ?g ?m)
                        with _ => _ end] =>
              destruct (snd (apply_zip v sl re cr o g m))
          | |- context [match soft_update ?t ?a ?b with _ => _ end] =>
              let E := fresh "E" in destruct (soft_update t a b) eqn:E
          | |- context [if ?b then _ else _] => destruct b
          | |- context [match alpha_optimizer ?x with _ => _ end] =>
              destruct (alpha_optimizer x)
          | |- context [match alpha_model ?x with _ => _ end] =>
              destruct (alpha_model x)
          end; simpl; rewrite ?Ht; simpl;
          try (let Hx := fresh "Hx" in intros Hx; discriminate Hx)).
  all: intros _ Hsp Hs1.
  all: repeat match goal with
         | E : soft_update ?t ?a ?b = Ok ?m,
           H : same_shapes (weights ?a) (weights ?b) = true |- _ =>
             rewrite (soft_update_ema t a b H) in E;
             inversion E; subst; clear E
         end.
  all: split; reflexivity.
Qed.


(** *** Restoring by position *)

Lemma set_weights_from_app (ws ws' : list (list tensor)) :
  forall (i : nat) s,
    set_weights_from i (ws ++ ws') s
    = match set_weights_from i ws s with
      | (s', Ok _) => set_weights_from (i + length ws) ws' s'
      | (s', Raise e) => (s', Raise e)
      end.
Proof.
  induction ws as [| w ws IH]; intros i s.
  - simpl. unfold ret. rewrite Nat.add_0_r. reflexivity.
  - simpl. unfold bind, try, modify.
    destruct (if Nat.ltb i (length (models s)) then _ else _) as [r |];
      [| reflexivity].
    destruct (get_module r s) as [m |]; [| reflexivity].
    destruct (Module_set_weights m w) as [m' |]; [| reflexivity].
    rewrite IH. replace (S i + length ws)%nat with (i + S (length ws))%nat by lia.
    reflexivity.
Qed.

(** X10.  [set_weights] has no place for an entry beyond the trainable and
    target modules: when a sequence of exactly that many entries is
    restored normally, the same sequence followed by further entries is
    restored too, entry by entry, and the call then ends in [IndexError]
    with the restored state left in place. *)
Theorem set_weights_too_long s s' (ws : list (list tensor))
        (extra : list tensor) (more : list (list tensor)) :
  set_weights ws s = (s', Ok tt) ->
  length ws = (length (models s) + length (target_models s))%nat ->
  set_weights (ws ++ extra :: more) s = (s', Raise IndexError).
Proof.
  unfold set_weights. intros Hok Hlen.
  rewrite set_weights_from_app, Hok. simpl.
  pose proof (set_weights_from_skeleton ws 0 s) as Hsk.
  rewrite Hok in Hsk. simpl in Hsk. unfold skeleton in Hsk.
  assert (Hm : models s' = models s) by congruence.
  assert (Ht : target_models s' = target_models s) by congruence.
  unfold bind, try. rewrite Hm, Ht, Hlen.
  destruct (Nat.ltb_spec (length (models s) + length (target_models s))
              (length (models s))) as [Hlt | _]; [lia |].
  replace (length (models s) + length (target_models s) - length (models s))%nat
    with (length (target_models s)) by lia.
  rewrite (proj2 (lookup_ge_None _ _)) by lia. reflexivity.
Qed.

(** *** The entropy coefficient *)

(** X11.  On a constructed group [log_alpha] is the initial log-value of
    the entropy coefficient when [alpha] is ['auto']; otherwise the group
    has no entropy-coefficient module and [log_alpha] raises
    [AttributeError]. *)
Theorem log_alpha_after_init (init : Initializer) (obs_space act_space : space)
        a s :
  __init__ os_init init obs_space act_space a = Ok s ->
  log_alpha s
  = if alpha_is_auto (alpha a) then Ok [init_log_alpha init]
    else Raise AttributeError.
Proof.
  intros H. apply init_Ok in H
    as (od & ad & _ & _ & _ & _ & _ & _ & _ & _ & _ & _ & _ & Ham & _).
  unfold log_alpha, get_module, rbind. rewrite Ham.
  destruct (alpha_is_auto (alpha a)); reflexivity.
Qed.

(** *** The squashed action *)

Lemma tanh_bounds (x : R) : -1 < tanh x < 1.
Proof.
  pose proof (tanh_square_lt_1 x) as H. unfold square in H. split; nra.
Qed.

Lemma rmapM_length {A B : Type} (f : A -> result B) (l : list A) (l' : list B) :
  rmapM f l = Ok l' -> length l' = length l.
Proof.
  revert l'. induction l as [| x l IH]; intros l' H; simpl in H.
  - inversion H. reflexivity.
  - destruct (f x) as [y |]; [| discriminate]. simpl in H.
    destruct (rmapM f l) as [ys |]; [| discriminate]. simpl in H.
    inversion H. simpl. rewrite (IH ys eq_refl). reflexivity.
Qed.

Lemma logits2action_stochastic_shape (noise : nat -> nat -> R)
      (logits action : tensor2) (lp : logp_t) :
  _logits2action false noise logits = Ok (action, lp) ->
  Forall (Forall (fun x => -1 < x < 1)) action
  /\ length action = length logits
  /\ exists v, lp = logp_rows v /\ length v = length logits.
Proof.
  unfold _logits2action, rbind.
  destruct (tf_split2 logits) as [[mean log_std] |] eqn:Es; [| discriminate].
  simpl. intros H. inversion H; subst; clear H.
  unfold tf_split2, rbind in Es.
  destruct (rmapM tf_split2_row logits) as [halves |] eqn:Eh; [| discriminate].
  apply rmapM_length in Eh. inversion Es; subst; clear Es.
  assert (Hn : length
                 (Normal_sample noise
                    (mkNormal (map fst halves) (t2_map exp (map snd halves))))
               = length logits).
  { unfold Normal_sample, t2_map2, t2_imap, t2_map. simpl.
    rewrite length_zip_with, length_imap, !length_map. lia. }
  set (smp := Normal_sample noise _) in *. clearbody smp.
  split; [| split].
  - unfold t2_map. apply Forall_fmap, Forall_forall. intros row _.
    apply Forall_fmap, Forall_forall. intros x _. apply tanh_bounds.
  - unfold t2_map. rewrite length_map. exact Hn.
  - eexists. split; [reflexivity |].
    unfold reduce_sum_last, t2_map, t2_map2, Normal_log_prob. simpl.
    rewrite !length_map, !length_zip_with, !length_map, Hn. lia.
Qed.

(** X12.  In stochastic mode every entry of an action returned by
    [compute_action] or [compute_target_action] lies between -1 and 1; the
    action has one row per row of the network output, and the
    log-probability is a vector with one entry per row. *)
Theorem stochastic_action_bounded s (noise : nat -> nat -> R) (obs : tensor2)
        (action : tensor2) (lp : logp_t) :
  deterministic_policy (args s) = false ->
  compute_action forward noise obs s = Ok (action, lp)
  \/ compute_target_action forward noise obs s = Ok (action, lp) ->
  Forall (Forall (fun x => -1 <= x <= 1)) action
  /\ exists v, lp = logp_rows v /\ length v = length action.
Proof.
  unfold compute_action, compute_target_action. intros Hd H. rewrite Hd in H.
  assert (Hweak : Forall (Forall (fun x => -1 < x < 1)) action ->
                  Forall (Forall (fun x => -1 <= x <= 1)) action).
  { intros Hb. eapply Forall_impl; [exact Hb |]. intros row Hrow.
    eapply Forall_impl; [exact Hrow |]. simpl. intros x Hx. lra. }
  destruct H as [H | H]; apply logits2action_stochastic_shape in H
    as (Hb & Hl & v & Hv & Hlv); (split; [exact (Hweak Hb) |]);
    exists v; (split; [exact Hv | congruence]).
Qed.

(** *** The order of the trainable weights *)

Ltac split_group' s :=
  let a := fresh "a" in
  destruct s as [a [] [] [] [] [] [] [] [] [] ? ? ? ? ?];
  destruct a as [? ? ? ? ? ? ? ? [] [] [] [] ? ? ?].

Ltac use_well_formed' H :=
  let Hl := fresh "Hl" in
  let Hal := fresh "Hal" in
  let Hn := fresh "Hn" in
  let Hno := fresh "Hno" in
  unfold well_formed in H; simpl in H;
  destruct H as (Hl & ? & ? & ? & ? & ? & ? & ? & ? & ? & Hal);
  unfold layout in Hl; simpl in Hl; try discriminate Hl;
  first [ destruct Hal as ([] & [] & ? & ? & Hn & Hno); simpl in Hn, Hno
        | destruct Hal as (? & ?) ];
  inversion Hl; clear Hl; subst.

(** X13.  On a well-formed group [trainable_weights] is the concatenation,
    in this order, of the weights of critic 1 and (under [double_Q])
    critic 2 unless [policy_only], of the policy, and of the
    entropy-coefficient module when there is one: the order in which
    [apply_gradients] cuts [grads]. *)
Theorem trainable_weights_order s :
  well_formed s ->
  trainable_weights s
  = Ok ((if policy_only (args s) then []
         else weights (Q1 s)
              ++ (if double_Q (args s) then weights (Q2 s) else []))
        ++ weights (policy s)
        ++ match alpha_model s with Some m => weights m | None => [] end).
Proof.
  intros H. split_group' s; use_well_formed' H.
  all: unfold trainable_weights; cbn.
  all: rewrite ?app_nil_r, <- ?app_assoc; reflexivity.
Qed.


(** *** Checkpoints *)

Lemma string_length_app (s t : string) :
  String.length (s +:+ t) = (String.length s + String.length t)%nat.
Proof. induction s as [| c s IH]; simpl; [reflexivity | rewrite IH; reflexivity]. Qed.

Lemma string_app_inj_r (s1 s2 t : string) : s1 +:+ t = s2 +:+ t -> s1 = s2.
Proof.
  revert s2. induction s1 as [| c s1 IH]; intros [| d s2] H; simpl in H.
  - reflexivity.
  - apply (f_equal String.length) in H.
    rewrite ?string_length_app in H. simpl in H.
    rewrite ?string_length_app in H. lia.
  - apply (f_equal String.length) in H.
    rewrite ?string_length_app in H. simpl in H.
    rewrite ?string_length_app in H. lia.
  - injection H as -> H. f_equal. apply IH, H.
Qed.

Lemma str_inj (z1 z2 : Z) : str z1 = str z2 -> z1 = z2.
Proof.
  assert (Hnn : forall z, Z.to_int z <> Decimal.Pos Decimal.Nil
                          /\ Z.to_int z <> Decimal.Neg Decimal.Nil).
  { intros z. split; intros E; pose proof (f_equal Z.of_int E) as E';
      rewrite DecimalZ.of_to in E'; simpl in E'; subst z; discriminate E. }
  unfold str. intros H.
  apply (f_equal NilZero.int_of_string) in H.
  rewrite !NilZero.isi in H by apply Hnn.
  injection H as H. apply (f_equal Z.of_int) in H.
  rewrite !DecimalZ.of_to in H. exact H.
Qed.

(** X14.  A checkpoint saved at one iteration is not disturbed by a later
    save, in the same directory, at another iteration: [load_weights] at
    the first iteration does after the second save what it did before
    it. *)
Theorem save_other_iteration_keeps_checkpoint sa sb s
        (dir : string) (it1 it2 : Z)
        (store st1 st2 : gmap string (gmap string saved)) :
  save_weights dir it1 store sa = Ok st1 ->
  save_weights dir it2 st1 sb = Ok st2 ->
  it1 <> it2 ->
  load_weights dir it1 st2 s = load_weights dir it1 st1 s.
Proof.
  unfold save_weights, rbind, Checkpoint_save.
  destruct (Checkpoint sa) as [ca |]; [| discriminate].
  destruct (Checkpoint sb) as [cb |]; [| discriminate].
  intros H1 H2 Hne. inversion H2; subst st2; clear H2.
  unfold load_weights, bind, try, Checkpoint_restore.
  destruct (Checkpoint s) as [c |]; [| reflexivity].
  rewrite lookup_insert_ne; [reflexivity |].
  intros E. change ("-" +:+ str 1) with "-1" in E.
  apply string_app_inj_r, String.app_inj, str_inj in E. congruence.
Qed.

(** X15.  [load_weights] restores the objects of the three tuples only:
    the state of a module or an optimizer that is in none of [models],
    [target_models] and [optimizers] (the critics of a [policy_only]
    group, the targets of a group without targets) is after the call what
    it was before, whatever the store holds. *)
Theorem load_weights_outside_group s (o : objref) (dir : string)
        (iteration : Z) (store : gmap string (gmap string saved)) :
  o ∉ (obj_module <$> models s ++ target_models s)
      ++ (obj_optimizer <$> optimizers s) ->
  read_obj (fst (load_weights dir iteration store s)) o = read_obj s o.
Proof.
  intros Hout. unfold load_weights, bind, try.
  destruct (Checkpoint s) as [ckpt |] eqn:Ec; [| reflexivity].
  unfold Checkpoint_restore.
  destruct (store !! _) as [snapshot |]; [| reflexivity].
  apply restore_objects_other, Forall_forall.
  intros [nm o'] Hin Heq. simpl in Heq. subst o'.
  apply elem_of_map_to_list in Hin.
  exact (Hout (Checkpoint_objects s ckpt nm o Ec Hin)).
Qed.

#[local] Transparent apply_zip.

End MoreProperties.

(** * The further properties on concrete groups *)

(** [init_tuples_aligned] on the twin-critic example group. *)
Lemma init_tuples_aligned_witness :
  length (optimizers (demo_group demo_twin))
  = length (models (demo_group demo_twin))
  /\ map optimizer_of (models (demo_group demo_twin))
     = map Some (optimizers (demo_group demo_twin))
  /\ (target_models (demo_group demo_twin) = []
      \/ target_models (demo_group demo_twin)
         = omap target_of (models (demo_group demo_twin)))
  /\ NoDup (models (demo_group demo_twin)
            ++ target_models (demo_group demo_twin)).
Proof.
  exact (init_tuples_aligned tt demo_init demo_space demo_space demo_twin
           (demo_group demo_twin) eq_refl).
Defined.

(** [critics_routing] on the twin-critic example group, weight 0. *)
Lemma critics_routing_witness :
  weights (Q1 (fst (apply_gradients demo_var demo_slots demo_reached demo_creates 1 demo_grads
                                    (demo_group demo_twin)))) !! 0%nat
  = Some [7 - 1]
  /\ weights (Q2 (fst (apply_gradients demo_var demo_slots demo_reached demo_creates 1 demo_grads
                                       (demo_group demo_twin)))) !! 0%nat
     = Some [9 - 1].
Proof.
  exact (critics_routing demo_var demo_slots demo_reached demo_creates
           (demo_group demo_twin) 1 demo_grads 0 eq_refl eq_refl).
Defined.

(** [policy_routing] on the twin-critic example group, weight 1. *)
Lemma policy_routing_witness :
  weights (policy (fst (apply_gradients demo_var demo_slots demo_reached demo_creates 0 demo_grads
                                        (demo_group demo_twin)))) !! 1%nat
  = Some [3 - 1]
  /\ iterations
       (policy_optimizer
          (fst (apply_gradients demo_var demo_slots demo_reached demo_creates 0 demo_grads
                                (demo_group demo_twin))))
     = 1%nat.
Proof.
  apply (policy_routing demo_var demo_slots demo_reached demo_creates
           (demo_group demo_twin) 0 demo_grads 1);
    [reflexivity | discriminate | reflexivity | reflexivity | reflexivity].
Defined.

(** [policy_only_frame] on the policy-only example group. *)
Lemma policy_only_frame_witness :
  set_policy (policy (demo_group demo_policy_only))
    (set_policy_optimizer (policy_optimizer (demo_group demo_policy_only))
       (fst (apply_gradients demo_var demo_slots demo_reached demo_creates 0 demo_grads
                             (demo_group demo_policy_only))))
  = demo_group demo_policy_only.
Proof.
  exact (policy_only_frame demo_var demo_slots demo_reached demo_creates
           (demo_group demo_policy_only) 0 demo_grads eq_refl).
Defined.

(** [single_critic_no_target_frame] on the single-critic example group, on
    a delayed step. *)
Lemma single_critic_no_target_frame_witness :
  policy_target (fst (apply_gradients demo_var demo_slots demo_reached demo_creates 0 demo_grads
                                      (demo_group demo_single)))
  = policy_target (demo_group demo_single)
  /\ Q1_target (fst (apply_gradients demo_var demo_slots demo_reached demo_creates 0 demo_grads
                                     (demo_group demo_single)))
     = Q1_target (demo_group demo_single)
  /\ Q2_target (fst (apply_gradients demo_var demo_slots demo_reached demo_creates 0 demo_grads
                                     (demo_group demo_single)))
     = Q2_target (demo_group demo_single)
  /\ Q2 (fst (apply_gradients demo_var demo_slots demo_reached demo_creates 0 demo_grads
                              (demo_group demo_single)))
     = Q2 (demo_group demo_single)
  /\ Q2_optimizer (fst (apply_gradients demo_var demo_slots demo_reached demo_creates 0 demo_grads
                                        (demo_group demo_single)))
     = Q2_optimizer (demo_group demo_single).
Proof.
  exact (single_critic_no_target_frame demo_var demo_slots demo_reached
           demo_creates (demo_group demo_single) 0 demo_grads eq_refl
           eq_refl).
Defined.

(** [alpha_gets_last_gradient] on the single-critic example group: the
    gradient list ends with [[5]]. *)
Lemma alpha_gets_last_gradient_witness :
  exists m' o',
    alpha_model (fst (apply_gradients demo_var demo_slots demo_reached demo_creates 0
                                      [[1]; [1; 1]; [1]; [5]]
                                      (demo_group demo_single)))
    = Some m'
    /\ alpha_optimizer (fst (apply_gradients demo_var demo_slots demo_reached demo_creates 0
                                             [[1]; [1; 1]; [1]; [5]]
                                             (demo_group demo_single)))
       = Some o'
    /\ name m' = "alpha"
    /\ iterations o' = 1%nat
    /\ weights m' !! 0%nat = Some [0 - 5].
Proof.
  destruct (alpha_gets_last_gradient demo_var demo_slots demo_reached
              demo_creates (demo_group demo_single) 0 [[1]; [1; 1]; [1]; [5]]
              (AlphaModel demo_init "alpha")
              (Adam tt [1; 10; 1] "alpha_adam_opt"))
    as (m' & o' & Hm & Ho & Hn & Hi & Hw);
    [reflexivity | discriminate | reflexivity | reflexivity | reflexivity
    | reflexivity | reflexivity |].
  exists m', o'. repeat split; try assumption. exact (Hw 0%nat).
Defined.

(** [delayed_step_targets] on the twin-critic example group. *)
Lemma delayed_step_targets_witness :
  weights (policy_target
             (fst (apply_gradients demo_var demo_slots demo_reached demo_creates 0 demo_grads
                                   (demo_group demo_twin))))
  = ema (1 / 2) [[1 - 1; 2 - 1]; [3 - 1]] [[4; 5]; [6]]
  /\ weights (Q1_target
                (fst (apply_gradients demo_var demo_slots demo_reached demo_creates 0 demo_grads
                                      (demo_group demo_twin))))
     = ema (1 / 2) [[7 - 1]] [[7]].
Proof.
  apply (delayed_step_targets demo_var demo_slots demo_reached demo_creates
           (demo_group demo_twin) 0 demo_grads);
    [ reflexivity | reflexivity | discriminate | reflexivity | reflexivity
    | reflexivity | reflexivity ].
Defined.

(** [set_weights_too_long] on the policy-only example group: one module,
    two entries. *)
Lemma set_weights_too_long_witness :
  set_weights ([[[1; 2]; [3]]] ++ [[0]] :: []) (demo_group demo_policy_only)
  = (demo_group demo_policy_only, Raise IndexError).
Proof.
  apply set_weights_too_long; reflexivity.
Defined.

(** [log_alpha_after_init] on a group without learned entropy
    coefficient. *)
Lemma log_alpha_after_init_witness :
  log_alpha (demo_group demo_policy_only) = Raise AttributeError.
Proof.
  exact (log_alpha_after_init tt demo_init demo_space demo_space
           demo_policy_only (demo_group demo_policy_only) eq_refl).
Defined.

(** [stochastic_action_bounded] on the twin-critic example group. *)
Lemma stochastic_action_bounded_witness :
  exists action lp,
    compute_action demo_forward (fun _ _ => 0) [[1; 2]] (demo_group demo_twin)
    = Ok (action, lp)
    /\ Forall (Forall (fun x => -1 <= x <= 1)) action
    /\ exists v, lp = logp_rows v /\ length v = length action.
Proof.
  eexists _, _. split; [reflexivity |].
  apply (stochastic_action_bounded demo_forward (demo_group demo_twin)
           (fun _ _ => 0) [[1; 2]]); [reflexivity | left; reflexivity].
Defined.

(** [trainable_weights_order] on the twin-critic example group. *)
Lemma trainable_weights_order_witness :
  trainable_weights (demo_group demo_twin)
  = Ok [[7]; [9]; [1; 2]; [3]; [0]].
Proof.
  exact (trainable_weights_order (demo_group demo_twin)
           (init_well_formed tt demo_init demo_space demo_space demo_twin
              (demo_group demo_twin) eq_refl)).
Defined.

(** [save_other_iteration_keeps_checkpoint]: saves at iterations 1 and 2,
    load at iteration 1. *)
Lemma save_other_iteration_keeps_checkpoint_witness :
  load_weights "d" 1
    (demo_store
       (save_weights "d" 2
          (demo_store (save_weights "d" 1 ∅ (demo_group demo_twin)))
          (demo_group demo_single)))
    (demo_group demo_twin)
  = load_weights "d" 1
      (demo_store (save_weights "d" 1 ∅ (demo_group demo_twin)))
      (demo_group demo_twin).
Proof.
  apply (save_other_iteration_keeps_checkpoint (demo_group demo_twin)
           (demo_group demo_single) (demo_group demo_twin) "d" 1 2 ∅).
  - vm_cast_no_check
      (eq_refl (Ok (demo_store (save_weights "d" 1 ∅ (demo_group demo_twin))))).
  - vm_cast_no_check
      (eq_refl
         (Ok (demo_store
                (save_weights "d" 2
                   (demo_store (save_weights "d" 1 ∅ (demo_group demo_twin)))
                   (demo_group demo_single))))).
  - discriminate.
Defined.

(** [load_weights_outside_group]: critic 1 of a policy-only group is not
    restored from a checkpoint of a twin-critic group. *)
Lemma load_weights_outside_group_witness :
  read_obj
    (fst (load_weights "d" 1
            (demo_store (save_weights "d" 1 ∅ (demo_group demo_twin)))
            (demo_group demo_policy_only)))
    (obj_module r_Q1)
  = read_obj (demo_group demo_policy_only) (obj_module r_Q1).
Proof.
  apply load_weights_outside_group.
  intros H. simpl in H.
  repeat (apply elem_of_cons in H as [H | H]; [discriminate H |]).
  inversion H.
Defined.
